(** * health-chatbot: the disease catalogue and its keyword responder

    A shallow embedding of [src/backend/main.js]: the [diseases] table kept
    by SQLite, the five CRUD routes over it, the start-up seeding and the
    [/api/chatbot] route with [formatChatbotResponse].

    Modelling choices.
    - Text is a [string] of bytes, the UTF-8 form in which the driver
      hands JavaScript strings to SQLite.  SQLite's [LOWER] and the case
      folding of [LIKE] change the ASCII letters only, and so does the
      [toLowerCase] here: it is JavaScript's on ASCII text, and the
      properties that lower-case a message are stated for ASCII messages.
    - The database is a value [db]: the rows of [diseases] in rowid order
      (the order of a [SELECT] without [ORDER BY] on this table) and the
      counter that [AUTOINCREMENT] keeps in [sqlite_sequence].
    - A route is a function from the database and the request to an
      [outcome] (the response sent, or the exception thrown before one was
      sent) and the database afterwards.  Each route issues one statement,
      so the callbacks are run in sequence.
    - The engine reports the errors its schema and its limits cause
      ([NOT NULL], rowid exhaustion, a [LIKE] pattern that is too long).
      Failures of the medium reach the routes through the same [err]
      argument and are answered by the same branch. *)

From Stdlib Require Import String Ascii List ZArith Bool Lia DecimalString Sorted.
Import ListNotations.

Local Open Scope string_scope.
Local Open Scope Z_scope.

(** ** JavaScript strings *)

Module JS.

(** [String.prototype.toLowerCase], one character. *)
Definition lower_ascii (c : ascii) : ascii :=
  let n := nat_of_ascii c in
  if (Nat.leb 65 n && Nat.leb n 90)%bool then ascii_of_nat (n + 32) else c.

(** [s.toLowerCase()] *)
Fixpoint toLowerCase (s : string) : string :=
  match s with
  | EmptyString => EmptyString
  | String c s' => String (lower_ascii c) (toLowerCase s')
  end.

(** [s.includes(sub)]: [sub] occurs in [s] at some position. *)
Fixpoint includes (s sub : string) : bool :=
  if prefix sub s then true
  else match s with
       | EmptyString => false
       | String _ s' => includes s' sub
       end.

(** The line feed written [\n] in the source's template literals. *)
Definition nl : string := String (ascii_of_nat 10) EmptyString.

(** What destructuring a JSON body gives for a property: [undefined] when
    it is absent, else its value.  A number is kept with the text a [TEXT]
    column stores for it; [JObject] is any array or object. *)
Inductive jsval : Type :=
| JUndefined
| JNull
| JBool (b : bool)
| JNum (stored : string)
| JStr (s : string)
| JObject.

End JS.
Import JS.

(** ** The SQL engine *)

Module Sql.

(** A bound parameter or a stored value. *)
Inductive sqlval : Type :=
| SNull
| SInt (n : Z)
| SText (s : string).

(** The errors the engine raises on this schema. *)
Inductive sqlerr : Type :=
| NotNullFailed (column : string)
| DatabaseFull
| PatternTooComplex.

(** [err.message] as the driver words it. *)
Definition message_of (e : sqlerr) : string :=
  match e with
  | NotNullFailed c => "SQLITE_CONSTRAINT: NOT NULL constraint failed: diseases." ++ c
  | DatabaseFull => "SQLITE_FULL: database or disk is full"
  | PatternTooComplex => "SQLITE_ERROR: LIKE or GLOB pattern too complex"
  end.

(** [LOWER(x)] *)
Definition LOWER (s : string) : string := toLowerCase s.

(** The text the matcher reads: a C string, which ends at the first NUL. *)
Fixpoint c_str (s : string) : string :=
  match s with
  | EmptyString => EmptyString
  | String c s' => if Ascii.eqb c zero then EmptyString else String c (c_str s')
  end.

(** The bytes of UTF-8 that continue a character, and those that start one
    of several bytes. *)
Definition continuation (c : ascii) : bool :=
  (Nat.leb 128 (nat_of_ascii c) && Nat.ltb (nat_of_ascii c) 192)%bool.

Definition lead (c : ascii) : bool := Nat.leb 192 (nat_of_ascii c).

Fixpoint skip_continuation (s : string) : string :=
  match s with
  | EmptyString => EmptyString
  | String c s' => if continuation c then skip_continuation s' else s
  end.

(** The text after its first character: one byte, and the continuation
    bytes behind it when that byte starts a longer character. *)
Definition skip_char (s : string) : string :=
  match s with
  | EmptyString => EmptyString
  | String c s' => if lead c then skip_continuation s' else s'
  end.

(** The matcher of [LIKE] without an [ESCAPE] clause: [%] stands for any
    run of characters, [_] for any one character, every other byte for
    itself up to ASCII case.  A run ends where a character ends: [inside]
    says that the text is read within a character of several bytes. *)
Fixpoint like (p s : string) {struct p} : bool :=
  match p with
  | EmptyString =>
      match s with EmptyString => true | String _ _ => false end
  | String c p' =>
      if Ascii.eqb c "%" then
        (fix any_run (t : string) (inside : bool) {struct t} : bool :=
           match t with
           | EmptyString => like p' EmptyString
           | String d t' =>
               if (inside && continuation d)%bool then any_run t' true
               else if like p' t then true
               else any_run t' (lead d)
           end) s false
      else
        match s with
        | EmptyString => false
        | String d s' =>
            if Ascii.eqb c "_" then like p' (skip_char s)
            else (Ascii.eqb (lower_ascii c) (lower_ascii d) && like p' s')%bool
        end
  end.

(** [x LIKE pattern] on two texts. *)
Definition LIKE (x pattern : string) : bool := like (c_str pattern) (c_str x).

(** The longest pattern [LIKE] accepts, in bytes. *)
Definition MAX_LIKE_PATTERN_LENGTH : Z := 50000.

(** Largest rowid of a table. *)
Definition MAX_ROWID : Z := 9223372036854775807.

End Sql.
Import Sql.

(** ** The [diseases] table *)

(** A row of [diseases], as [SELECT *] returns it. *)
Record disease : Type := mkDisease {
  id : Z;
  name : string;
  symptoms : string;
  causes : string;
  prevention : string;
  when_to_see_doctor : string
}.

(** The database file: the rows in rowid order and the largest rowid the
    table ever held ([sqlite_sequence], kept for [AUTOINCREMENT]). *)
Record db : Type := mkDb {
  rows : list disease;
  seq : Z
}.

(** The values of one [INSERT] or [UPDATE], in column order. *)
Record values : Type := mkValues {
  v_name : sqlval;
  v_symptoms : sqlval;
  v_causes : sqlval;
  v_prevention : sqlval;
  v_when_to_see_doctor : sqlval
}.

(** What a statement's callback receives: [err], or the result. *)
Inductive result (A : Type) : Type :=
| Err (e : sqlerr)
| Ok (a : A).
Arguments Err {A} e.
Arguments Ok {A} a.

Module Engine.

(** The database before [createTables] has ever run. *)
Definition empty : db := mkDb [] 0.

(** A column declared [TEXT] stores an integer as its decimal text. *)
Definition text_affinity (v : sqlval) : option string :=
  match v with
  | SNull => None
  | SInt n => Some (NilZero.string_of_int (Z.to_int n))
  | SText s => Some s
  end.

(** The five columns are [TEXT NOT NULL]: the first [NULL] in column
    order fails the statement. *)
Definition stored (k : Z) (v : values) : result disease :=
  match text_affinity (v_name v) with
  | None => Err (NotNullFailed "name")
  | Some n =>
  match text_affinity (v_symptoms v) with
  | None => Err (NotNullFailed "symptoms")
  | Some s =>
  match text_affinity (v_causes v) with
  | None => Err (NotNullFailed "causes")
  | Some c =>
  match text_affinity (v_prevention v) with
  | None => Err (NotNullFailed "prevention")
  | Some p =>
  match text_affinity (v_when_to_see_doctor v) with
  | None => Err (NotNullFailed "when_to_see_doctor")
  | Some w => Ok (mkDisease k n s c p w)
  end end end end end.

(** Largest rowid in the table, 0 when it is empty. *)
Definition max_rowid (l : list disease) : Z :=
  fold_right (fun r m => Z.max (id r) m) 0 l.

(** [INSERT INTO diseases (name, ...) VALUES (?, ...)] with
    [id INTEGER PRIMARY KEY AUTOINCREMENT]: the new rowid is one more than
    the largest the table ever held, and the statement fails rather than
    go back to a smaller one.  Returns [lastID]. *)
Definition insert (d : db) (v : values) : result (Z * db) :=
  let top := Z.max (seq d) (max_rowid (rows d)) in
  if MAX_ROWID <=? top then Err DatabaseFull
  else
    match stored (top + 1) v with
    | Err e => Err e
    | Ok r => Ok (top + 1, mkDb (rows d ++ [r]) (top + 1))
    end.

(** [SELECT * FROM diseases] *)
Definition select_all (d : db) : result (list disease) := Ok (rows d).

(** [SELECT * FROM diseases WHERE id = ?] through [db.get]: the first
    row, or [undefined]. *)
Definition select_by_id (d : db) (k : Z) : result (option disease) :=
  Ok (find (fun r => id r =? k) (rows d)).

(** [SELECT COUNT( * ) as count FROM diseases] *)
Definition select_count (d : db) : result Z :=
  Ok (Z.of_nat (length (rows d))).

(** Number of rows a [WHERE id = ?] touches ([this.changes]). *)
Definition touched (d : db) (k : Z) : Z :=
  Z.of_nat (length (filter (fun r => id r =? k) (rows d))).

(** [UPDATE diseases SET name = ?, ... WHERE id = ?]: the constraint is
    checked on the rows that are written, so a statement that touches no
    row succeeds with [changes = 0]. *)
Definition update (d : db) (v : values) (k : Z) : result (Z * db) :=
  if touched d k =? 0 then Ok (0, d)
  else
    match stored k v with
    | Err e => Err e
    | Ok r =>
        Ok (touched d k,
            mkDb (map (fun old => if id old =? k then r else old) (rows d))
                 (seq d))
    end.

(** [DELETE FROM diseases WHERE id = ?] *)
Definition delete (d : db) (k : Z) : result (Z * db) :=
  Ok (touched d k,
      mkDb (filter (fun r => negb (id r =? k)) (rows d)) (seq d)).

(** The [WHERE] clause of the chatbot's query, its three parameters all
    bound to the same pattern. *)
Definition where_like (pattern : string) (r : disease) : bool :=
  (LIKE (LOWER (name r)) pattern
   || LIKE (LOWER (symptoms r)) pattern
   || LIKE (LOWER (causes r)) pattern)%bool.

(** [SELECT * FROM diseases WHERE LOWER(name) LIKE ? OR
    LOWER(symptoms) LIKE ? OR LOWER(causes) LIKE ?]: the first row the
    scan reaches has [LIKE] look at the pattern, and a pattern over the
    limit fails the statement; on an empty table nothing looks at it. *)
Definition select_like (d : db) (pattern : string) : result (list disease) :=
  match rows d with
  | [] => Ok []
  | _ :: _ =>
      if MAX_LIKE_PATTERN_LENGTH <? Z.of_nat (String.length pattern)
      then Err PatternTooComplex
      else Ok (filter (where_like pattern) (rows d))
  end.

End Engine.

(** ** The server *)

(** One element of [sampleDiseases]. *)
Record sample : Type := mkSample {
  s_name : string;
  s_symptoms : string;
  s_causes : string;
  s_prevention : string;
  s_when_to_see_doctor : string
}.

Definition sampleDiseases : list sample :=
  [ mkSample
      "Diabetes"
      "Increased thirst, frequent urination, extreme hunger, unexplained weight loss, fatigue, blurred vision, slow-healing sores"
      "Insulin resistance, pancreas not producing enough insulin, genetic factors, obesity, sedentary lifestyle"
      "Maintain healthy weight, exercise regularly (30 mins daily), eat balanced diet with less sugar, monitor blood sugar levels, avoid smoking"
      "If you experience excessive thirst and urination, unexplained weight loss, or persistent fatigue. Regular checkups if you have family history.";
    mkSample
      "Dengue"
      "High fever, severe headache, pain behind eyes, joint and muscle pain, nausea, vomiting, skin rash, mild bleeding (nose/gums)"
      "Aedes mosquito bite carrying dengue virus, standing water breeding grounds, tropical climate areas"
      "Use mosquito repellent, wear long sleeves, eliminate standing water, use mosquito nets, keep surroundings clean"
      "Immediately if you have high fever with severe headache, persistent vomiting, bleeding, difficulty breathing, or severe abdominal pain.";
    mkSample
      "Malaria"
      "High fever with chills, sweating, headache, nausea, vomiting, muscle pain, fatigue, anemia"
      "Anopheles mosquito bite carrying plasmodium parasite, exposure to infected blood"
      "Sleep under mosquito nets, use insect repellent, take antimalarial medication in high-risk areas, eliminate mosquito breeding sites"
      "Seek immediate care for high fever after visiting malaria-prone areas, severe headache, confusion, seizures, or difficulty breathing.";
    mkSample
      "Common Cold"
      "Runny nose, sore throat, cough, sneezing, mild headache, slight fever, body aches"
      "Viral infection (rhinovirus), spread through droplets, weakened immunity, seasonal changes"
      "Wash hands frequently, avoid close contact with sick people, boost immunity with vitamin C, stay hydrated, get enough sleep"
      "If symptoms last more than 10 days, fever above 101.3°F, difficulty breathing, severe throat pain, or symptoms worsen after improving.";
    mkSample
      "Hypertension"
      "Usually no symptoms (silent killer), sometimes headaches, shortness of breath, nosebleeds in severe cases"
      "High salt intake, obesity, lack of exercise, stress, smoking, alcohol, genetic factors"
      "Reduce salt intake, exercise regularly, maintain healthy weight, manage stress, limit alcohol, quit smoking, monitor blood pressure"
      "Regular checkups recommended. Seek immediate care for severe headache, chest pain, vision problems, or difficulty breathing." ].

(** How the driver binds a JavaScript value to a [?], up to what the
    [TEXT] column makes of it: a boolean is bound as the integer 1 or 0, a
    number ends as its stored text, an array or an object as the text
    [[object Object]]. *)
Definition bind (v : jsval) : sqlval :=
  match v with
  | JUndefined => SNull
  | JNull => SNull
  | JBool b => SInt (if b then 1 else 0)
  | JNum stored => SText stored
  | JStr s => SText s
  | JObject => SText "[object Object]"
  end.

(** [stmt.run(disease.name, disease.symptoms, ...)] for one sample.  No
    callback is given: a failed run inserts nothing. *)
Definition run_sample (d : db) (s : sample) : db :=
  match Engine.insert d
          (mkValues (SText (s_name s)) (SText (s_symptoms s))
                    (SText (s_causes s)) (SText (s_prevention s))
                    (SText (s_when_to_see_doctor s))) with
  | Err _ => d
  | Ok (_, d') => d'
  end.

(** [insertSampleData]: the samples go in when [row.count === 0]. *)
Definition insertSampleData (d : db) : db :=
  match Engine.select_count d with
  | Err _ => d
  | Ok count =>
      if count =? 0 then fold_left run_sample sampleDiseases d else d
  end.

(** [createTables]: [CREATE TABLE IF NOT EXISTS] leaves an existing table
    as it is, then [insertSampleData] runs. *)
Definition createTables (d : db) : db := insertSampleData d.

(** The JSON body of a response. *)
Inductive body : Type :=
| BError (error : string)
| BDiseases (diseases : list disease)
| BDisease (row : disease)
| BAdded (message : string) (lastID : Z)
| BMessage (message : string)
| BReply (reply : string) (row : option disease).

Record response : Type := mkResponse {
  status : Z;
  json : body
}.

(** [res.json(b)] and [res.status(c).json(b)]. *)
Definition res_json (b : body) : response := mkResponse 200 b.
Definition res_status_json (c : Z) (b : body) : response := mkResponse c b.

(** The exception a handler of this program can throw. *)
Inductive exn : Type :=
| TypeError.

(** A handler sends a response, or throws before it sends one. *)
Inductive outcome : Type :=
| Sent (r : response)
| Thrown (e : exn).

(** The body of [POST] and [PUT /api/diseases], destructured. *)
Record fields : Type := mkFields {
  f_name : jsval;
  f_symptoms : jsval;
  f_causes : jsval;
  f_prevention : jsval;
  f_when_to_see_doctor : jsval
}.

Definition bind_fields (f : fields) : values :=
  mkValues (bind (f_name f)) (bind (f_symptoms f)) (bind (f_causes f))
           (bind (f_prevention f)) (bind (f_when_to_see_doctor f)).

(** [GET /api/diseases] *)
Definition get_diseases (d : db) : outcome * db :=
  match Engine.select_all d with
  | Err e => (Sent (res_status_json 500 (BError (message_of e))), d)
  | Ok rs => (Sent (res_json (BDiseases rs)), d)
  end.

(** [GET /api/diseases/:id].  The parameter is the number the comparison
    with the [INTEGER] column reads in [req.params.id]. *)
Definition get_disease (d : db) (k : Z) : outcome * db :=
  match Engine.select_by_id d k with
  | Err e => (Sent (res_status_json 500 (BError (message_of e))), d)
  | Ok None => (Sent (res_status_json 404 (BError "Disease not found")), d)
  | Ok (Some row) => (Sent (res_json (BDisease row)), d)
  end.

(** [POST /api/diseases] *)
Definition post_disease (d : db) (f : fields) : outcome * db :=
  match Engine.insert d (bind_fields f) with
  | Err e => (Sent (res_status_json 500 (BError (message_of e))), d)
  | Ok (lastID, d') =>
      (Sent (res_json (BAdded "Disease added successfully" lastID)), d')
  end.

(** [PUT /api/diseases/:id] *)
Definition put_disease (d : db) (k : Z) (f : fields) : outcome * db :=
  match Engine.update d (bind_fields f) k with
  | Err e => (Sent (res_status_json 500 (BError (message_of e))), d)
  | Ok (changes, d') =>
      if changes =? 0
      then (Sent (res_status_json 404 (BError "Disease not found")), d')
      else (Sent (res_json (BMessage "Disease updated successfully")), d')
  end.

(** [DELETE /api/diseases/:id] *)
Definition delete_disease (d : db) (k : Z) : outcome * db :=
  match Engine.delete d k with
  | Err e => (Sent (res_status_json 500 (BError (message_of e))), d)
  | Ok (changes, d') =>
      if changes =? 0
      then (Sent (res_status_json 404 (BError "Disease not found")), d')
      else (Sent (res_json (BMessage "Disease deleted successfully")), d')
  end.

(** [formatChatbotResponse(disease, query)] *)
Definition formatChatbotResponse (disease : disease) (query : string) : string :=
  let response := "**" ++ name disease ++ "**" ++ nl ++ nl in
  if includes query "symptom" then
    response ++ ("**Symptoms:**" ++ nl ++ symptoms disease ++ nl ++ nl)
  else if includes query "cause" then
    response ++ ("**Causes:**" ++ nl ++ causes disease ++ nl ++ nl)
  else if (includes query "prevent" || includes query "avoid")%bool then
    response ++ ("**Prevention:**" ++ nl ++ prevention disease ++ nl ++ nl)
  else if (includes query "doctor" || includes query "hospital")%bool then
    response ++ ("**When to see a doctor:**" ++ nl
                 ++ when_to_see_doctor disease ++ nl ++ nl)
  else
    let response := response ++ ("**Symptoms:**" ++ nl ++ symptoms disease ++ nl ++ nl) in
    let response := response ++ ("**Causes:**" ++ nl ++ causes disease ++ nl ++ nl) in
    let response := response ++ ("**Prevention:**" ++ nl ++ prevention disease ++ nl ++ nl) in
    response ++ ("**When to see a doctor:**" ++ nl ++ when_to_see_doctor disease).

(** The reply when [rows.length === 0]. *)
Definition fallback_reply : string :=
  "I'm sorry, I couldn't find information about that. Please try asking about common diseases like diabetes, dengue, malaria, common cold, or hypertension. You can also ask about symptoms, causes, or prevention.".

(** [message.toLowerCase()]: the method exists on strings only; on any
    other value the call throws. *)
Definition message_toLowerCase (message : jsval) : exn + string :=
  match message with
  | JStr s => inr (toLowerCase s)
  | JUndefined | JNull | JBool _ | JNum _ | JObject => inl TypeError
  end.

(** The callback of the chatbot's [db.all]. *)
Definition chatbot_rows (searchTerm : string) (r : result (list disease))
  : response :=
  match r with
  | Err e => res_status_json 500 (BError (message_of e))
  | Ok [] => res_json (BReply fallback_reply None)
  | Ok (row0 :: _) =>
      let reply := formatChatbotResponse row0 searchTerm in
      res_json (BReply reply (Some row0))
  end.

(** [POST /api/chatbot] *)
Definition post_chatbot (d : db) (message : jsval) : outcome * db :=
  match message_toLowerCase message with
  | inl e => (Thrown e, d)
  | inr searchTerm =>
      let pattern := "%" ++ searchTerm ++ "%" in
      (Sent (chatbot_rows searchTerm (Engine.select_like d pattern)), d)
  end.

(** ** Runs of the server *)

(** What reaches the process: a start (or restart) on the database file,
    or a request on one of the six routes. *)
Inductive event : Type :=
| Start
| GetDiseases
| GetDisease (k : Z)
| PostDisease (f : fields)
| PutDisease (k : Z) (f : fields)
| DeleteDisease (k : Z)
| PostChatbot (message : jsval).

Definition step (d : db) (e : event) : db :=
  match e with
  | Start => createTables d
  | GetDiseases => snd (get_diseases d)
  | GetDisease k => snd (get_disease d k)
  | PostDisease f => snd (post_disease d f)
  | PutDisease k f => snd (put_disease d k f)
  | DeleteDisease k => snd (delete_disease d k)
  | PostChatbot m => snd (post_chatbot d m)
  end.

(** The database after a sequence of events. *)
Definition run (d : db) (es : list event) : db := fold_left step es d.

(** The databases the program can produce, starting from no file. *)
Definition reachable (d : db) : Prop :=
  exists es, d = run Engine.empty es.

(** The database the first start leaves. *)
Definition seeded : db := createTables Engine.empty.

(** ** The vocabulary of the specification *)

(** The ids in the table, in store order. *)
Definition ids (d : db) : list Z := map id (rows d).

(** A request body whose five fields are all present as text. *)
Definition text_fields (n s c p w : string) : fields :=
  mkFields (JStr n) (JStr s) (JStr c) (JStr p) (JStr w).

(** The five text columns of a row. *)
Definition sample_of (r : disease) : sample :=
  mkSample (name r) (symptoms r) (causes r) (prevention r)
           (when_to_see_doctor r).

(** What every database the program produces satisfies: no id occurs
    twice, and none exceeds the counter of [AUTOINCREMENT]. *)
Definition well_formed (d : db) : Prop :=
  NoDup (ids d) /\ Forall (fun k => 0 < k <= seq d) (ids d).

(** An id that was given out and is no longer in the table. *)
Definition retired (k : Z) (d : db) : Prop :=
  k <= seq d /\ ~ In k (ids d).

(** The two responses the claims name. *)
Definition not_found : outcome :=
  Sent (res_status_json 404 (BError "Disease not found")).

Definition found (r : disease) : outcome :=
  Sent (res_json (BDisease r)).

(** A query without the two characters [LIKE] reads as wildcards. *)
Fixpoint plain (s : string) : bool :=
  match s with
  | EmptyString => true
  | String c s' =>
      (negb (Ascii.eqb c "%") && negb (Ascii.eqb c "_") && plain s')%bool
  end.

(** The match predicate as the specification words it: the lower-cased
    query is a substring, up to case, of the name, the symptoms or the
    causes. *)
Definition spec_matches (query : string) (r : disease) : bool :=
  (includes (toLowerCase (name r)) (toLowerCase query)
   || includes (toLowerCase (symptoms r)) (toLowerCase query)
   || includes (toLowerCase (causes r)) (toLowerCase query))%bool.

(** The four sections of a reply. *)
Inductive section : Type :=
| Symptoms
| Causes
| Prevention
| Care.

Definition label (s : section) : string :=
  match s with
  | Symptoms => "Symptoms"
  | Causes => "Causes"
  | Prevention => "Prevention"
  | Care => "When to see a doctor"
  end.

Definition text_of (s : section) (r : disease) : string :=
  match s with
  | Symptoms => symptoms r
  | Causes => causes r
  | Prevention => prevention r
  | Care => when_to_see_doctor r
  end.

(** A section: its label in bold, then the field's text. *)
Definition block (r : disease) (s : section) : string :=
  "**" ++ label s ++ ":**" ++ nl ++ text_of s r.

(** The heading line bearing the record's name. *)
Definition heading (r : disease) : string :=
  "**" ++ name r ++ "**" ++ nl ++ nl.

(** A reply with one section only. *)
Definition only (r : disease) (s : section) : string :=
  heading r ++ block r s ++ nl ++ nl.

(** A reply with the four sections in their fixed order. *)
Definition everything (r : disease) : string :=
  heading r ++ block r Symptoms ++ nl ++ nl ++ block r Causes ++ nl ++ nl
  ++ block r Prevention ++ nl ++ nl ++ block r Care.

(** The category rules of the specification, in priority order: a set of
    keywords and the section it selects. *)
Definition rules : list (list string * section) :=
  [ (["symptom"], Symptoms);
    (["cause"], Causes);
    (["prevent"; "avoid"], Prevention);
    (["doctor"; "hospital"], Care) ].

(** The first rule one of whose keywords occurs in the query decides;
    when none does, all four sections are given. *)
Definition spec_reply (r : disease) (query : string) : string :=
  match find (fun rule => existsb (includes query) (fst rule)) rules with
  | Some (_, s) => only r s
  | None => everything r
  end.

(** The body of the chatbot's response as the specification describes it,
    given the rows that matched, in store order: the fallback without a
    [disease] field when there is none, else the reply for the first one
    and that row. *)
Definition spec_body (searchTerm : string) (matched : list disease) : body :=
  match matched with
  | [] => BReply fallback_reply None
  | r :: _ => BReply (spec_reply r searchTerm) (Some r)
  end.

(** Text of ASCII characters other than NUL: on it [toLowerCase] is
    JavaScript's, and a byte is a character. *)
Definition ascii_char (c : ascii) : bool :=
  (Nat.leb 1 (nat_of_ascii c) && Nat.leb (nat_of_ascii c) 127)%bool.

Fixpoint ascii_text (s : string) : bool :=
  match s with
  | EmptyString => true
  | String c s' => (ascii_char c && ascii_text s')%bool
  end.

(** Text without NUL: the matcher reads all of it. *)
Fixpoint nul_free (s : string) : bool :=
  match s with
  | EmptyString => true
  | String c s' => (negb (Ascii.eqb c zero) && nul_free s')%bool
  end.

(** A row whose three searched columns are read in full. *)
Definition searchable (r : disease) : bool :=
  (nul_free (name r) && nul_free (symptoms r) && nul_free (causes r))%bool.

(** A message whose pattern, with the two [%] around it, is within the
    limit of [LIKE]. *)
Definition short (m : string) : Prop :=
  Z.of_nat (String.length m) + 2 <= MAX_LIKE_PATTERN_LENGTH.

(** A text that does not begin in the middle of a character. *)
Definition starts_char (s : string) : bool :=
  match s with
  | EmptyString => true
  | String d _ => negb (continuation d)
  end.

(** The run that [%] stands for, followed by the pattern [p]. *)
Fixpoint any_run (p t : string) (inside : bool) {struct t} : bool :=
  match t with
  | EmptyString => like p EmptyString
  | String d t' =>
      if (inside && continuation d)%bool then any_run p t' true
      else if like p t then true
      else any_run p t' (lead d)
  end.

(** A value the driver binds to [NULL]: [undefined] or [null]. *)
Definition unbound (v : jsval) : bool :=
  match v with
  | JUndefined | JNull => true
  | JBool _ | JNum _ | JStr _ | JObject => false
  end.

(** A body in which one of the five fields is absent or [null]. *)
Definition lacks_field (f : fields) : bool :=
  (unbound (f_name f) || unbound (f_symptoms f) || unbound (f_causes f)
   || unbound (f_prevention f) || unbound (f_when_to_see_doctor f))%bool.

(** The response of the [if (err)] branch of a route. *)
Definition server_error (e : sqlerr) : outcome :=
  Sent (res_status_json 500 (BError (message_of e))).

(** The row a sample becomes under a given id. *)
Definition row_of (k : Z) (s : sample) : disease :=
  mkDisease k (s_name s) (s_symptoms s) (s_causes s) (s_prevention s)
            (s_when_to_see_doctor s).

(** Samples as rows with consecutive ids from [k] on. *)
Fixpoint numbered (k : Z) (l : list sample) : list disease :=
  match l with
  | [] => []
  | s :: l' => row_of k s :: numbered (k + 1) l'
  end.

(** The listing is in ascending order of id, and the counter of
    [AUTOINCREMENT] stays within the rowids. *)
Definition ordered (d : db) : Prop :=
  StronglySorted Z.lt (ids d) /\ 0 <= seq d <= MAX_ROWID.

(** * Properties *)

(** ** Strings *)

Section Strings.

Lemma string_app_empty_r (s : string) : s ++ "" = s.
Proof. induction s as [|c s IH]; simpl; [reflexivity | now rewrite IH]. Qed.

Lemma string_app_assoc (a b c : string) : (a ++ b) ++ c = a ++ (b ++ c).
Proof. induction a as [|x a IH]; simpl; [reflexivity | now rewrite IH]. Qed.

Lemma prefix_app (p s : string) :
  prefix p s = true <-> exists b, s = p ++ b.
Proof.
  revert s; induction p as [|c p IH]; intros s; simpl.
  - split; [intros _; now exists s | now destruct s].
  - destruct s as [|d s].
    + split; [discriminate | intros [b Hb]; discriminate].
    + simpl. destruct (ascii_dec c d) as [->|Hne].
      * rewrite IH. split; intros [b Hb]; exists b.
        -- now rewrite Hb.
        -- now injection Hb.
      * split; [discriminate | intros [b Hb]; injection Hb; congruence].
Qed.

Lemma includes_unfold (s sub : string) :
  includes s sub =
  if prefix sub s then true
  else match s with
       | EmptyString => false
       | String _ s' => includes s' sub
       end.
Proof. destruct s; reflexivity. Qed.

(** [includes] finds an occurrence exactly when there is one. *)
Lemma includes_app (s sub : string) :
  includes s sub = true <-> exists a b, s = a ++ sub ++ b.
Proof.
  induction s as [|c s IH]; rewrite includes_unfold;
    destruct (prefix sub _) eqn:Hp.
  - apply prefix_app in Hp as [b Hb].
    split; [intros _; now exists "", b | reflexivity].
  - split; [discriminate|]. intros [a [b Hab]].
    destruct a; [|discriminate]. simpl in Hab.
    assert (prefix sub "" = true) by (apply prefix_app; now exists b).
    congruence.
  - apply prefix_app in Hp as [b Hb].
    split; [intros _; now exists "", b | reflexivity].
  - rewrite IH. split.
    + intros [a [b Hab]]. exists (String c a), b. simpl. now rewrite Hab.
    + intros [a [b Hab]]. destruct a as [|x a].
      * simpl in Hab.
        assert (prefix sub (String c s) = true)
          by (apply prefix_app; now exists b).
        congruence.
      * simpl in Hab. injection Hab as _ Hs. now exists a, b.
Qed.

Lemma includes_middle (a sub b : string) : includes (a ++ sub ++ b) sub = true.
Proof. apply includes_app. now exists a, b. Qed.

Lemma lower_ascii_idem (c : ascii) : lower_ascii (lower_ascii c) = lower_ascii c.
Proof. destruct c as [[] [] [] [] [] [] [] []]; reflexivity. Qed.

Lemma toLowerCase_idem (s : string) : toLowerCase (toLowerCase s) = toLowerCase s.
Proof.
  induction s as [|c s IH]; simpl; [reflexivity|].
  now rewrite lower_ascii_idem, IH.
Qed.

Lemma toLowerCase_app (a b : string) :
  toLowerCase (a ++ b) = toLowerCase a ++ toLowerCase b.
Proof. induction a as [|c a IH]; simpl; [reflexivity | now rewrite IH]. Qed.

(** A piece of a lower-case string is lower-case. *)
Lemma lower_piece (a b : string) :
  toLowerCase (a ++ b) = a ++ b -> toLowerCase a = a /\ toLowerCase b = b.
Proof.
  induction a as [|c a IH]; simpl; intros H; [now split|].
  injection H as Hc Hr. destruct (IH Hr) as [Ha Hb].
  split; [now rewrite Hc, Ha | exact Hb].
Qed.

End Strings.

(** ** The [LIKE] operator *)

Section Like.

Lemma like_percent (p s : string) :
  like (String "%" p) s = any_run p s false.
Proof.
  simpl. generalize false. induction s as [|d s IH]; intros inside;
    [reflexivity|].
  simpl. now rewrite !IH.
Qed.

Lemma like_literal (c : ascii) (p s : string) :
  Ascii.eqb c "%" = false -> Ascii.eqb c "_" = false ->
  like (String c p) s
  = match s with
    | EmptyString => false
    | String d s' =>
        (Ascii.eqb (lower_ascii c) (lower_ascii d) && like p s')%bool
    end.
Proof. intros H1 H2. simpl. rewrite H1. destruct s; [reflexivity|]. now rewrite H2. Qed.

Lemma like_underscore (p s : string) :
  like (String "_" p) s
  = match s with
    | EmptyString => false
    | String _ _ => like p (skip_char s)
    end.
Proof. destruct s; reflexivity. Qed.

(** A run followed by [p] matches only when [p] matches some tail. *)
Lemma any_run_tail (p t : string) (inside : bool) :
  any_run p t inside = true -> exists a b, t = a ++ b /\ like p b = true.
Proof.
  revert inside. induction t as [|d t IH]; intros inside; simpl.
  - intros H. now exists "", "".
  - destruct (inside && continuation d)%bool.
    + intros H. destruct (IH _ H) as [a [b [Hab Hb]]].
      exists (String d a), b. simpl. now rewrite Hab.
    + destruct (like p (String d t)) eqn:Hp.
      * intros _. now exists "", (String d t).
      * intros H. destruct (IH _ H) as [a [b [Hab Hb]]].
        exists (String d a), b. simpl. now rewrite Hab.
Qed.

(** It does match when [p] matches a tail that begins a character. *)
Lemma any_run_at (p a b : string) (inside : bool) :
  like p b = true -> starts_char b = true ->
  any_run p (a ++ b) inside = true.
Proof.
  intros Hb Hs. revert inside. induction a as [|x a IH]; intros inside.
  - simpl. destruct b as [|d b]; simpl; [exact Hb|].
    simpl in Hs. apply negb_true_iff in Hs. rewrite Hs, andb_false_r.
    now rewrite Hb.
  - simpl. destruct (inside && continuation x)%bool; [apply IH|].
    destruct (like p (String x (a ++ b))); [reflexivity | apply IH].
Qed.

Lemma like_percent_only (s : string) : like "%" s = true.
Proof.
  rewrite like_percent. rewrite <- (string_app_empty_r s).
  now apply any_run_at.
Qed.

(** A run [q] of ordinary characters at the head of a pattern matches a
    head of the text that equals it up to case. *)
Lemma like_plain_head (q p s : string) :
  plain q = true ->
  like (q ++ p) s = true <->
  exists a b, s = a ++ b /\ toLowerCase a = toLowerCase q /\ like p b = true.
Proof.
  revert s; induction q as [|c q IH]; intros s Hq.
  - simpl. split.
    + intros H. now exists "", s.
    + intros [a [b [Hab [Ha Hb]]]]. destruct a; [|discriminate]. now subst.
  - simpl in Hq. apply andb_prop in Hq as [Hc Hq].
    apply andb_prop in Hc as [Hc1 Hc2].
    apply negb_true_iff in Hc1, Hc2.
    change (String c q ++ p) with (String c (q ++ p)).
    rewrite (like_literal c _ s Hc1 Hc2). destruct s as [|d s].
    + split; [discriminate|]. intros [a [b [Hab [Ha _]]]].
      destruct a; discriminate.
    + rewrite andb_true_iff, Ascii.eqb_eq, (IH s Hq). split.
      * intros [Hcd [a [b [Hab [Ha Hb]]]]]. exists (String d a), b.
        simpl. now rewrite Hab, Ha, Hcd.
      * intros [a [b [Hab [Ha Hb]]]]. destruct a as [|x a]; [discriminate|].
        simpl in Hab, Ha. injection Hab as -> ->. injection Ha as Hx Ha.
        split; [now symmetry | now exists a, b].
Qed.

Lemma continuation_lower (c : ascii) :
  continuation (lower_ascii c) = continuation c.
Proof. destruct c as [[] [] [] [] [] [] [] []]; reflexivity. Qed.

Lemma starts_char_lower (a b : string) :
  toLowerCase a = toLowerCase b -> starts_char a = starts_char b.
Proof.
  destruct a as [|x a], b as [|y b]; simpl; try discriminate;
    [reflexivity|].
  intros H. injection H as Hxy _.
  now rewrite <- (continuation_lower x), Hxy, continuation_lower.
Qed.

(** The pattern the chatbot builds around a query without wildcards
    matches the texts that contain the query up to case. *)
Lemma like_contains (q s : string) :
  plain q = true -> starts_char q = true ->
  like ("%" ++ q ++ "%") s = true <->
  exists a m b, s = a ++ m ++ b /\ toLowerCase m = toLowerCase q.
Proof.
  intros Hq Hsq. change ("%" ++ q ++ "%") with (String "%" (q ++ "%")).
  rewrite like_percent. split.
  - intros H. apply any_run_tail in H as [a [t [Hs Ht]]].
    apply (like_plain_head q "%" t Hq) in Ht.
    destruct Ht as [m [b [Ht [Hm _]]]]. exists a, m, b. now subst.
  - intros [a [m [b [Hs Hm]]]]. rewrite Hs.
    assert (Hl : like (q ++ "%") (m ++ b) = true).
    { apply (like_plain_head q "%" (m ++ b) Hq). exists m, b.
      split; [reflexivity|]. split; [exact Hm | apply like_percent_only]. }
    destruct m as [|x m].
    + destruct q as [|y q]; [|discriminate]. simpl in Hl |- *.
      rewrite <- (string_app_empty_r (a ++ b)).
      apply any_run_at; [|reflexivity]. apply (like_percent_only "").
    + apply any_run_at; [exact Hl|].
      change (starts_char (String x m ++ b)) with (starts_char (String x m)).
      now rewrite (starts_char_lower _ _ Hm).
Qed.

Lemma plain_toLowerCase (q : string) : plain (toLowerCase q) = plain q.
Proof.
  induction q as [|c q IH]; simpl; [reflexivity|]. rewrite IH. f_equal.
  destruct c as [[] [] [] [] [] [] [] []]; reflexivity.
Qed.

Lemma ascii_char_facts (c : ascii) :
  ascii_char c = true ->
  Ascii.eqb c zero = false /\ continuation c = false
  /\ ascii_char (lower_ascii c) = true.
Proof. destruct c as [[] [] [] [] [] [] [] []]; simpl; intros H; try discriminate H; now repeat split. Qed.

Lemma ascii_text_lower (s : string) :
  ascii_text s = true -> ascii_text (toLowerCase s) = true.
Proof.
  induction s as [|c s IH]; simpl; [reflexivity|]. intros H.
  apply andb_prop in H as [Hc Hs].
  now rewrite (proj2 (proj2 (ascii_char_facts c Hc))), IH.
Qed.

Lemma ascii_text_nul_free (s : string) :
  ascii_text s = true -> nul_free s = true.
Proof.
  induction s as [|c s IH]; simpl; [reflexivity|]. intros H.
  apply andb_prop in H as [Hc Hs].
  now rewrite (proj1 (ascii_char_facts c Hc)), IH.
Qed.

Lemma ascii_text_starts_char (s : string) :
  ascii_text s = true -> starts_char s = true.
Proof.
  destruct s as [|c s]; simpl; [reflexivity|]. intros H.
  apply andb_prop in H as [Hc _].
  now rewrite (proj1 (proj2 (ascii_char_facts c Hc))).
Qed.

Lemma nul_free_lower (s : string) : nul_free (toLowerCase s) = nul_free s.
Proof.
  induction s as [|c s IH]; simpl; [reflexivity|]. rewrite IH. f_equal.
  destruct c as [[] [] [] [] [] [] [] []]; reflexivity.
Qed.

Lemma nul_free_app (a b : string) :
  nul_free (a ++ b) = (nul_free a && nul_free b)%bool.
Proof.
  induction a as [|c a IH]; simpl; [reflexivity|].
  now rewrite IH, andb_assoc.
Qed.

(** The matcher reads all of a text without NUL. *)
Lemma c_str_nul_free (s : string) : nul_free s = true -> c_str s = s.
Proof.
  induction s as [|c s IH]; simpl; [reflexivity|]. intros H.
  apply andb_prop in H as [Hc Hs]. apply negb_true_iff in Hc.
  now rewrite Hc, IH.
Qed.

(** In any case it reads a head of the text. *)
Lemma c_str_head (s : string) : exists t, s = c_str s ++ t.
Proof.
  induction s as [|c s [t IH]]; simpl; [now exists ""|].
  destruct (Ascii.eqb c zero); [now exists (String c s)|].
  exists t. simpl. now rewrite <- IH.
Qed.

(** The pattern of the route for an ASCII message is read in full. *)
Lemma c_str_pattern (m : string) :
  ascii_text m = true ->
  c_str ("%" ++ toLowerCase m ++ "%") = "%" ++ toLowerCase m ++ "%".
Proof.
  intros Hm. apply c_str_nul_free.
  change ("%" ++ toLowerCase m ++ "%")
    with (String "%" (toLowerCase m ++ "%")).
  cbn [nul_free]. rewrite nul_free_app, nul_free_lower.
  now rewrite (ascii_text_nul_free m Hm).
Qed.

(** On a text without NUL and an ASCII query without wildcards, [LIKE]
    and [includes] agree. *)
Lemma like_includes (q f : string) :
  plain q = true -> ascii_text q = true -> nul_free f = true ->
  LIKE (LOWER f) ("%" ++ toLowerCase q ++ "%")
  = includes (toLowerCase f) (toLowerCase q).
Proof.
  intros Hq Ha Hf. unfold LIKE, LOWER.
  rewrite (c_str_pattern q Ha).
  rewrite (c_str_nul_free (toLowerCase f)) by now rewrite nul_free_lower.
  apply eq_true_iff_eq.
  rewrite like_contains
    by (try (now rewrite plain_toLowerCase);
        now apply ascii_text_starts_char, ascii_text_lower).
  rewrite includes_app, toLowerCase_idem. split.
  - intros [a [m [b [Hfm Hm]]]]. exists a, b.
    assert (Hl : toLowerCase (a ++ m ++ b) = a ++ m ++ b)
      by (rewrite <- Hfm; apply toLowerCase_idem).
    apply lower_piece in Hl as [_ Hl]. apply lower_piece in Hl as [Hl _].
    now rewrite <- Hm, Hl.
  - intros [a [b Hfm]]. exists a, (toLowerCase q), b.
    split; [exact Hfm | apply toLowerCase_idem].
Qed.

(** For an ASCII query without [%] and [_] and a row read in full, the
    [WHERE] clause is the match predicate of the specification. *)
Lemma where_like_plain (q : string) (r : disease) :
  plain q = true -> ascii_text q = true -> searchable r = true ->
  Engine.where_like ("%" ++ toLowerCase q ++ "%") r = spec_matches q r.
Proof.
  intros Hq Ha Hr. unfold searchable in Hr.
  apply andb_prop in Hr as [Hr Hc]. apply andb_prop in Hr as [Hn Hs].
  unfold Engine.where_like, spec_matches.
  now rewrite !like_includes by assumption.
Qed.

(** The [WHERE] clause reads the name, the symptoms and the causes of a
    row and nothing else. *)
Lemma where_like_columns (pattern : string) (r r' : disease) :
  name r = name r' -> symptoms r = symptoms r' -> causes r = causes r' ->
  Engine.where_like pattern r = Engine.where_like pattern r'.
Proof. intros Hn Hs Hc. unfold Engine.where_like. now rewrite Hn, Hs, Hc. Qed.

End Like.

(** ** The keyword responder *)

Section Responder.

Lemma find_filter_head {A : Type} (f : A -> bool) (l : list A) :
  find f l = hd_error (filter f l).
Proof.
  induction l as [|x l IH]; simpl; [reflexivity|].
  destruct (f x); [reflexivity | exact IH].
Qed.

Lemma string_length_app (a b : string) :
  String.length (a ++ b) = (String.length a + String.length b)%nat.
Proof. induction a as [|c a IH]; simpl; [reflexivity | now rewrite IH]. Qed.

Lemma string_length_lower (s : string) :
  String.length (toLowerCase s) = String.length s.
Proof. induction s as [|c s IH]; simpl; [reflexivity | now rewrite IH]. Qed.

(** The pattern is the message and two bytes. *)
Lemma pattern_length (m : string) :
  Z.of_nat (String.length ("%" ++ toLowerCase m ++ "%"))
  = Z.of_nat (String.length m) + 2.
Proof.
  change ("%" ++ toLowerCase m ++ "%")
    with (String "%" (toLowerCase m ++ "%")).
  cbn [String.length]. rewrite string_length_app, string_length_lower.
  simpl. lia.
Qed.

Lemma format_spec_reply (r : disease) (query : string) :
  formatChatbotResponse r query = spec_reply r query.
Proof.
  unfold formatChatbotResponse, spec_reply, rules, only, everything,
    heading, block.
  cbn [find existsb fst].
  destruct (includes query "symptom"); cbn [orb label text_of];
    [now rewrite !string_app_assoc|].
  destruct (includes query "cause"); cbn [orb label text_of];
    [now rewrite !string_app_assoc|].
  destruct (includes query "prevent"); cbn [orb label text_of];
    [now rewrite !string_app_assoc|].
  destruct (includes query "avoid"); cbn [orb label text_of];
    [now rewrite !string_app_assoc|].
  destruct (includes query "doctor"); cbn [orb label text_of];
    [now rewrite !string_app_assoc|].
  destruct (includes query "hospital"); cbn [orb label text_of];
    now rewrite !string_app_assoc.
Qed.

(** What the callback of [db.all] answers to the rows it is given. *)
Lemma chatbot_rows_ok (searchTerm : string) (matched : list disease) :
  chatbot_rows searchTerm (Ok matched)
  = res_json (spec_body searchTerm matched).
Proof.
  destruct matched as [|r l]; simpl; [reflexivity|].
  now rewrite format_spec_reply.
Qed.

(** The rows the query gives for a short ASCII message without wildcards
    on a table that is read in full. *)
Lemma select_like_plain (d : db) (m : string) :
  ascii_text m = true -> plain m = true -> short m ->
  forallb searchable (rows d) = true ->
  Engine.select_like d ("%" ++ toLowerCase m ++ "%")
  = Ok (filter (spec_matches m) (rows d)).
Proof.
  intros Ha Hp Hs Hd. unfold Engine.select_like.
  destruct (rows d) as [|r l] eqn:Hrows; [reflexivity|].
  rewrite pattern_length. unfold short in Hs.
  destruct (Z.ltb_spec MAX_LIKE_PATTERN_LENGTH (Z.of_nat (String.length m) + 2));
    [lia|].
  f_equal. apply filter_ext_in. intros x Hx.
  apply where_like_plain; [exact Hp | exact Ha|].
  rewrite forallb_forall in Hd. now apply Hd.
Qed.

Lemma post_chatbot_plain (d : db) (m : string) :
  ascii_text m = true -> plain m = true -> short m ->
  forallb searchable (rows d) = true ->
  post_chatbot d (JStr m)
  = (Sent (res_json (spec_body (toLowerCase m)
                               (filter (spec_matches m) (rows d)))), d).
Proof.
  intros Ha Hp Hs Hd. unfold post_chatbot. cbn [message_toLowerCase].
  now rewrite (select_like_plain d m Ha Hp Hs Hd), chatbot_rows_ok.
Qed.

End Responder.

(** C2. The category of a reply is decided by the first rule, in the
    order symptom, cause, prevent or avoid, doctor or hospital, that has a
    keyword in the query the formatter is given; the reply then holds
    that section alone, and all four sections in their fixed order when
    no rule applies.  A query with both "symptom" and "doctor", in either
    order, gets the symptoms section. *)
Theorem category_dispatch_priority (r : disease) :
  (forall query, formatChatbotResponse r query = spec_reply r query)
  /\ (forall a b c,
        formatChatbotResponse r (a ++ "symptom" ++ b ++ "doctor" ++ c)
        = only r Symptoms
        /\ formatChatbotResponse r (a ++ "doctor" ++ b ++ "symptom" ++ c)
           = only r Symptoms).
Proof.
  split; [apply format_spec_reply|].
  intros a b c. rewrite !format_spec_reply. unfold spec_reply, rules.
  cbn [find existsb fst]. rewrite (includes_middle a "symptom").
  replace (a ++ "doctor" ++ b ++ "symptom" ++ c)
    with ((a ++ "doctor" ++ b) ++ "symptom" ++ c)
    by now rewrite !string_app_assoc.
  rewrite (includes_middle _ "symptom"). now split.
Qed.

(** C3. On the seeded store the message "diabetes symptoms" matches no
    row, since no name, symptoms or causes text contains the whole
    message: the route answers with the fallback reply and no row, not
    with the symptoms of Diabetes. *)
Theorem diabetes_symptoms_gets_fallback :
  post_chatbot seeded (JStr "diabetes symptoms")
  = (Sent (res_json (BReply fallback_reply None)), seeded)
  /\ filter (spec_matches "diabetes symptoms") (rows seeded) = [].
Proof. split; vm_compute; reflexivity. Qed.

(** C4. When the query of the store succeeds and returns no row, the
    callback answers 200 with the fixed fallback reply, which names the
    five diseases and the three categories, and no [disease] field; when
    it returns rows, the reply is the one for the first of them, in store
    order, and that row is the [disease] field; when the query fails, the
    answer is 500 with the engine's message.  For a short ASCII message
    without wildcards on a table read in full, the query succeeds and the
    rows it returns are those whose name, symptoms or causes contains the
    message up to case. *)
Theorem chatbot_fallback_or_first_match (d : db) (m : string) :
  (forall searchTerm e,
     chatbot_rows searchTerm (Err e)
     = mkResponse 500 (BError (message_of e)))
  /\ (forall searchTerm,
        chatbot_rows searchTerm (Ok [])
        = mkResponse 200 (BReply fallback_reply None))
  /\ (forall searchTerm r rest,
        chatbot_rows searchTerm (Ok (r :: rest))
        = mkResponse 200 (BReply (spec_reply r searchTerm) (Some r)))
  /\ (ascii_text m = true -> plain m = true -> short m ->
      forallb searchable (rows d) = true ->
      post_chatbot d (JStr m)
      = (Sent (mkResponse 200
           match filter (spec_matches m) (rows d) with
           | [] => BReply fallback_reply None
           | r :: _ => BReply (spec_reply r (toLowerCase m)) (Some r)
           end), d))
  /\ forallb (includes fallback_reply)
       ["diabetes"; "dengue"; "malaria"; "common cold"; "hypertension";
        "symptoms"; "causes"; "prevention"] = true.
Proof.
  split; [reflexivity|]. split; [reflexivity|]. split.
  { intros searchTerm r rest. now rewrite chatbot_rows_ok. }
  split; [|vm_compute; reflexivity].
  intros Ha Hp Hs Hd. now rewrite (post_chatbot_plain d m Ha Hp Hs Hd).
Qed.

Lemma chatbot_fallback_or_first_match_witness :
  ascii_text "Mosquito" = true /\ plain "Mosquito" = true
  /\ short "Mosquito" /\ forallb searchable (rows seeded) = true
  /\ post_chatbot seeded (JStr "Mosquito")
     = (Sent (mkResponse 200
          match filter (spec_matches "Mosquito") (rows seeded) with
          | [] => BReply fallback_reply None
          | r :: _ => BReply (spec_reply r (toLowerCase "Mosquito")) (Some r)
          end), seeded).
Proof.
  assert (Hs : short "Mosquito")
    by (unfold short, MAX_LIKE_PATTERN_LENGTH; simpl; lia).
  split; [reflexivity|]. split; [reflexivity|]. split; [exact Hs|].
  split; [reflexivity|].
  exact (proj1 (proj2 (proj2 (proj2
           (chatbot_fallback_or_first_match seeded "Mosquito"))))
           eq_refl eq_refl Hs eq_refl).
Defined.

(** A message of 49,999 letters is contained in no text of the seeded
    store and no row satisfies the [WHERE] clause for it, yet the route
    does not answer with the fallback: the query fails and the answer is
    500. *)
Lemma long_query_gets_error_not_fallback :
  filter (spec_matches
            (string_of_list_ascii (repeat "a"%char (Z.to_nat 49999))))
         (rows seeded) = []
  /\ filter (Engine.where_like
               ("%" ++ toLowerCase
                  (string_of_list_ascii (repeat "a"%char (Z.to_nat 49999)))
                ++ "%"))
            (rows seeded) = []
  /\ post_chatbot seeded
       (JStr (string_of_list_ascii (repeat "a"%char (Z.to_nat 49999))))
     = (Sent (mkResponse 500
          (BError "SQLITE_ERROR: LIKE or GLOB pattern too complex")), seeded)
  /\ post_chatbot seeded
       (JStr (string_of_list_ascii (repeat "a"%char (Z.to_nat 49999))))
     <> (Sent (res_json (BReply fallback_reply None)), seeded).
Proof.
  split; [vm_compute; reflexivity|]. split; [vm_compute; reflexivity|].
  assert (H : post_chatbot seeded
                (JStr (string_of_list_ascii
                         (repeat "a"%char (Z.to_nat 49999))))
              = (Sent (mkResponse 500
                   (BError "SQLITE_ERROR: LIKE or GLOB pattern too complex")),
                 seeded)) by (vm_compute; reflexivity).
  split; [exact H|]. rewrite H. discriminate.
Qed.

(** C10. A message that is not a string has no [toLowerCase]: the route
    throws before it queries the table, sends no response of its own, the
    fallback reply included, and the database is untouched. *)
Theorem chatbot_throws_without_text (d : db) (message : jsval) :
  (forall s, message <> JStr s) ->
  post_chatbot d message = (Thrown TypeError, d)
  /\ forall r, fst (post_chatbot d message) <> Sent r.
Proof.
  intros Hm.
  assert (H : post_chatbot d message = (Thrown TypeError, d)).
  { destruct message; try reflexivity. now destruct (Hm s). }
  split; [exact H|]. intros r. rewrite H. discriminate.
Qed.

Lemma chatbot_throws_without_text_witness :
  post_chatbot seeded JUndefined = (Thrown TypeError, seeded)
  /\ forall r, fst (post_chatbot seeded JUndefined) <> Sent r.
Proof.
  apply (chatbot_throws_without_text seeded JUndefined).
  intros s; discriminate.
Defined.

(** C1. The query "d_abetes" occurs in no name, symptoms or causes text
    of the seeded store, yet the [WHERE] clause keeps the Diabetes row:
    [LIKE] reads the [_] of the message as a wildcard, and the route
    answers with that row instead of the fallback. *)
Theorem like_wildcard_in_query :
  exists r,
    hd_error (rows seeded) = Some r
    /\ name r = "Diabetes"
    /\ Engine.where_like ("%" ++ toLowerCase "d_abetes" ++ "%") r = true
    /\ spec_matches "d_abetes" r = false
    /\ filter (spec_matches "d_abetes") (rows seeded) = []
    /\ fst (post_chatbot seeded (JStr "d_abetes"))
       = Sent (res_json (BReply (everything r) (Some r))).
Proof.
  eexists. split; [vm_compute; reflexivity|].
  repeat split; vm_compute; reflexivity.
Qed.

(** ** The table *)

Section Table.

Lemma db_eta (d : db) : mkDb (rows d) (seq d) = d.
Proof. now destruct d. Qed.

Lemma find_absent (k : Z) (l : list disease) :
  ~ In k (map id l) -> find (fun r => id r =? k) l = None.
Proof.
  induction l as [|r l IH]; simpl; intros H; [reflexivity|].
  destruct (Z.eqb_spec (id r) k) as [E|E]; [tauto|]. apply IH. tauto.
Qed.

Lemma filter_absent (k : Z) (l : list disease) :
  ~ In k (map id l) ->
  filter (fun r => id r =? k) l = []
  /\ filter (fun r => negb (id r =? k)) l = l.
Proof.
  induction l as [|r l IH]; simpl; intros H; [now split|].
  destruct (Z.eqb_spec (id r) k) as [E|E]; [tauto|]. simpl.
  destruct IH as [IH1 IH2]; [tauto|]. now rewrite IH1, IH2.
Qed.

Lemma touched_absent (d : db) (k : Z) :
  ~ In k (ids d) -> Engine.touched d k = 0.
Proof.
  intros H. unfold Engine.touched.
  now rewrite (proj1 (filter_absent k (rows d) H)).
Qed.

Lemma touched_present (d : db) (k : Z) :
  In k (ids d) -> 0 < Engine.touched d k.
Proof.
  unfold Engine.touched, ids. induction (rows d) as [|r l IH]; simpl;
    [tauto|]. intros [E|H].
  - rewrite E, Z.eqb_refl. simpl. lia.
  - destruct (id r =? k); [simpl; lia | now apply IH].
Qed.

Lemma ids_after_delete (k : Z) (l : list disease) :
  map id (filter (fun r => negb (id r =? k)) l)
  = filter (fun j => negb (j =? k)) (map id l).
Proof.
  induction l as [|r l IH]; simpl; [reflexivity|].
  destruct (id r =? k); simpl; now rewrite IH.
Qed.

Lemma ids_after_update (k : Z) (r : disease) (l : list disease) :
  id r = k ->
  map id (map (fun old => if id old =? k then r else old) l) = map id l.
Proof.
  intros Hr. induction l as [|x l IH]; simpl; [reflexivity|].
  rewrite IH. f_equal. destruct (Z.eqb_spec (id x) k); congruence.
Qed.

Lemma find_after_update (k : Z) (r : disease) (l : list disease) :
  id r = k -> In k (map id l) ->
  find (fun x => id x =? k)
       (map (fun old => if id old =? k then r else old) l) = Some r.
Proof.
  intros Hr. induction l as [|x l IH]; simpl; [tauto|]. intros H.
  destruct (Z.eqb_spec (id x) k) as [E|E].
  - now rewrite Hr, Z.eqb_refl.
  - destruct (Z.eqb_spec (id x) k); [tauto|]. apply IH. tauto.
Qed.

Lemma max_rowid_bound (l : list disease) :
  0 <= Engine.max_rowid l /\ Forall (fun k => k <= Engine.max_rowid l) (map id l).
Proof.
  induction l as [|r l [IH0 IH]]; simpl; [split; [lia | constructor]|].
  split; [lia|]. constructor; [lia|].
  eapply Forall_impl; [|exact IH]. simpl. intros; lia.
Qed.

Lemma find_appended (k : Z) (r : disease) (l : list disease) :
  id r = k -> ~ In k (map id l) ->
  find (fun x => id x =? k) (l ++ [r]) = Some r.
Proof.
  intros Hr. induction l as [|x l IH]; simpl; intros H.
  - now rewrite Hr, Z.eqb_refl.
  - destruct (Z.eqb_spec (id x) k); [tauto|]. apply IH. tauto.
Qed.

Lemma stored_id (k : Z) (v : values) (r : disease) :
  Engine.stored k v = Ok r -> id r = k.
Proof.
  unfold Engine.stored.
  destruct (Engine.text_affinity (v_name v)); [|discriminate].
  destruct (Engine.text_affinity (v_symptoms v)); [|discriminate].
  destruct (Engine.text_affinity (v_causes v)); [|discriminate].
  destruct (Engine.text_affinity (v_prevention v)); [|discriminate].
  destruct (Engine.text_affinity (v_when_to_see_doctor v)); [|discriminate].
  intros H. injection H as <-. reflexivity.
Qed.

Lemma stored_text (k : Z) (n s c p w : string) :
  Engine.stored k (bind_fields (text_fields n s c p w))
  = Ok (mkDisease k n s c p w).
Proof. reflexivity. Qed.

(** What a successful [INSERT] does to the table. *)
Lemma insert_ok (d d' : db) (v : values) (k : Z) :
  Engine.insert d v = Ok (k, d') ->
  exists r,
    Engine.stored k v = Ok r
    /\ rows d' = (rows d ++ [r])%list /\ seq d' = k
    /\ 0 < k /\ seq d < k /\ Forall (fun j => j < k) (ids d).
Proof.
  unfold Engine.insert. destruct (Z.leb_spec MAX_ROWID
    (Z.max (seq d) (Engine.max_rowid (rows d)))) as [_|_]; [discriminate|].
  destruct (Engine.stored _ v) as [e|r] eqn:Hs; [discriminate|].
  pose proof (proj1 (max_rowid_bound (rows d))) as H0.
  intros H. injection H as <- <-. exists r.
  split; [exact Hs|]. split; [reflexivity|]. split; [reflexivity|].
  split; [lia|]. split; [lia|].
  eapply Forall_impl; [|exact (proj2 (max_rowid_bound (rows d)))].
  simpl. intros; lia.
Qed.

Lemma insert_fresh (d d' : db) (v : values) (k : Z) :
  Engine.insert d v = Ok (k, d') -> ~ In k (ids d).
Proof.
  intros H. apply insert_ok in H as [r [_ [_ [_ [_ [_ Hall]]]]]].
  rewrite Forall_forall in Hall. intros Hin. apply Hall in Hin. lia.
Qed.

End Table.

(** With room for one more rowid, creating a record of five texts
    succeeds. *)
Lemma create_succeeds (d : db) (n s c p w : string) :
  Z.max (seq d) (Engine.max_rowid (rows d)) < MAX_ROWID ->
  exists k d',
    post_disease d (text_fields n s c p w)
    = (Sent (res_json (BAdded "Disease added successfully" k)), d').
Proof.
  intros H. unfold post_disease, Engine.insert.
  destruct (Z.leb_spec MAX_ROWID (Z.max (seq d) (Engine.max_rowid (rows d))));
    [lia|].
  rewrite stored_text. eauto.
Qed.

(** C5. When creating a record from five fields given as text returns an
    id, reading that id returns a row with exactly those five texts. *)
Theorem create_then_get (d d' : db) (n s c p w msg : string) (k : Z) :
  post_disease d (text_fields n s c p w)
  = (Sent (res_json (BAdded msg k)), d') ->
  get_disease d' k = (found (mkDisease k n s c p w), d').
Proof.
  unfold post_disease.
  destruct (Engine.insert d _) as [e|[k0 d0]] eqn:Hi; intros H;
    [discriminate|].
  injection H as _ Hk Hd. subst k0 d0.
  pose proof (insert_fresh _ _ _ _ Hi) as Hfresh.
  apply insert_ok in Hi as [r [Hs [Hr _]]].
  rewrite stored_text in Hs. injection Hs as <-.
  unfold get_disease, Engine.select_by_id. rewrite Hr.
  now rewrite find_appended.
Qed.

Lemma create_then_get_witness :
  post_disease seeded
    (text_fields "Influenza" "Fever, cough" "Influenza virus"
                 "Yearly vaccine" "If breathing is hard")
  = (Sent (res_json (BAdded "Disease added successfully" 6)),
     snd (post_disease seeded
            (text_fields "Influenza" "Fever, cough" "Influenza virus"
                         "Yearly vaccine" "If breathing is hard")))
  /\ get_disease
       (snd (post_disease seeded
               (text_fields "Influenza" "Fever, cough" "Influenza virus"
                            "Yearly vaccine" "If breathing is hard"))) 6
     = (found (mkDisease 6 "Influenza" "Fever, cough" "Influenza virus"
                 "Yearly vaccine" "If breathing is hard"),
        snd (post_disease seeded
               (text_fields "Influenza" "Fever, cough" "Influenza virus"
                            "Yearly vaccine" "If breathing is hard"))).
Proof.
  split; [vm_compute; reflexivity|].
  apply (create_then_get seeded _ _ _ _ _ _ "Disease added successfully").
  vm_compute; reflexivity.
Defined.

(** C6. Updating a record that is in the store with five fields given as
    text succeeds, and reading the id afterwards returns a row made of
    those five texts and the id: nothing of the earlier row is kept. *)
Theorem update_then_get (d : db) (k : Z) (n s c p w : string) :
  In k (ids d) ->
  fst (put_disease d k (text_fields n s c p w))
  = Sent (res_json (BMessage "Disease updated successfully"))
  /\ get_disease (snd (put_disease d k (text_fields n s c p w))) k
     = (found (mkDisease k n s c p w),
        snd (put_disease d k (text_fields n s c p w))).
Proof.
  intros Hin. pose proof (touched_present d k Hin) as Ht.
  unfold put_disease, Engine.update.
  destruct (Z.eqb_spec (Engine.touched d k) 0) as [E|E]; [lia|].
  rewrite stored_text.
  destruct (Z.eqb_spec (Engine.touched d k) 0) as [E'|_]; [lia|].
  split; [reflexivity|].
  unfold get_disease, Engine.select_by_id. cbn [snd rows].
  now rewrite find_after_update.
Qed.

Lemma update_then_get_witness :
  In 2 (ids seeded)
  /\ fst (put_disease seeded 2 (text_fields "a" "b" "c" "d" "e"))
     = Sent (res_json (BMessage "Disease updated successfully"))
  /\ get_disease (snd (put_disease seeded 2 (text_fields "a" "b" "c" "d" "e"))) 2
     = (found (mkDisease 2 "a" "b" "c" "d" "e"),
        snd (put_disease seeded 2 (text_fields "a" "b" "c" "d" "e"))).
Proof.
  assert (H : In 2 (ids seeded)) by (vm_compute; tauto).
  split; [exact H|].
  exact (update_then_get seeded 2 "a" "b" "c" "d" "e" H).
Defined.

(** C7. For an id that is not in the store, reading, updating (whatever
    the fields) and deleting each answer 404 with the error "Disease not
    found" and leave the store as it was; and whatever the store, a
    second delete of the same id answers 404. *)
Theorem absent_id_not_found (d : db) (k : Z) (f : fields) :
  ~ In k (ids d) ->
  not_found = Sent (mkResponse 404 (BError "Disease not found"))
  /\ get_disease d k = (not_found, d)
  /\ put_disease d k f = (not_found, d)
  /\ delete_disease d k = (not_found, d)
  /\ forall d0,
       delete_disease (snd (delete_disease d0 k)) k
       = (not_found, snd (delete_disease d0 k)).
Proof.
  intros Hk.
  assert (Hdel : forall d1, ~ In k (ids d1) ->
                            delete_disease d1 k = (not_found, d1)).
  { intros d1 H1. unfold delete_disease, Engine.delete.
    rewrite (touched_absent d1 k H1). simpl.
    rewrite (proj2 (filter_absent k (rows d1) H1)). now rewrite db_eta. }
  split; [reflexivity|]. split.
  { unfold get_disease, Engine.select_by_id. now rewrite find_absent. }
  split.
  { unfold put_disease, Engine.update. now rewrite touched_absent. }
  split; [now apply Hdel|].
  intros d0. apply Hdel. unfold delete_disease, Engine.delete.
  destruct (Engine.touched d0 k =? 0); unfold ids; cbn [snd rows];
    rewrite ids_after_delete, filter_In, Z.eqb_refl; simpl;
    intros [_ H]; discriminate.
Qed.

Lemma absent_id_not_found_witness :
  ~ In 9 (ids seeded)
  /\ get_disease seeded 9 = (not_found, seeded)
  /\ put_disease seeded 9 (text_fields "a" "b" "c" "d" "e")
     = (not_found, seeded)
  /\ delete_disease seeded 9 = (not_found, seeded).
Proof.
  assert (H : ~ In 9 (ids seeded)).
  { vm_compute. intros H. repeat destruct H as [H|H]; try discriminate H.
    exact H. }
  split; [exact H|].
  destruct (absent_id_not_found seeded 9 (text_fields "a" "b" "c" "d" "e") H)
    as [_ [Hg [Hp [Hd _]]]].
  split; [exact Hg|]. split; [exact Hp | exact Hd].
Defined.

(** ** Seeding *)

Section Seeding.

(** One sample either finds the rowids exhausted and changes nothing, or
    is appended as a new row. *)
Lemma run_sample_cases (d : db) (s : sample) :
  (MAX_ROWID <= Z.max (seq d) (Engine.max_rowid (rows d))
   /\ run_sample d s = d)
  \/ (exists k r,
        Engine.insert d
          (mkValues (SText (s_name s)) (SText (s_symptoms s))
                    (SText (s_causes s)) (SText (s_prevention s))
                    (SText (s_when_to_see_doctor s)))
        = Ok (k, run_sample d s)
        /\ rows (run_sample d s) = (rows d ++ [r])%list
        /\ sample_of r = s).
Proof.
  unfold run_sample, Engine.insert.
  destruct (Z.leb_spec MAX_ROWID (Z.max (seq d) (Engine.max_rowid (rows d))))
    as [H|H]; [left; now split|].
  right. simpl. eexists. eexists. split; [reflexivity|].
  split; [reflexivity|]. now destruct s.
Qed.

Lemma fold_run_sample_full (l : list sample) (d : db) :
  MAX_ROWID <= Z.max (seq d) (Engine.max_rowid (rows d)) ->
  fold_left run_sample l d = d.
Proof.
  intros H. induction l as [|s l IH]; simpl; [reflexivity|].
  destruct (run_sample_cases d s) as [[_ E]|[k [r [Hi _]]]].
  - now rewrite E.
  - unfold Engine.insert in Hi.
    destruct (Z.leb_spec MAX_ROWID
      (Z.max (seq d) (Engine.max_rowid (rows d)))); [discriminate | lia].
Qed.

(** The rows a seeding adds are a first part of the sample list, in its
    order; when it adds none, it changes nothing. *)
Lemma fold_run_sample_rows (l : list sample) (d : db) :
  exists n t,
    rows (fold_left run_sample l d) = (rows d ++ t)%list
    /\ map sample_of t = firstn n l
    /\ (t = [] -> fold_left run_sample l d = d).
Proof.
  revert d. induction l as [|s l IH]; intros d; simpl.
  - exists 0%nat, []. now rewrite app_nil_r.
  - destruct (run_sample_cases d s) as [[Hfull E]|[k [r [_ [Hr Hs]]]]].
    + rewrite E, (fold_run_sample_full l d Hfull).
      exists 0%nat, []. now rewrite app_nil_r.
    + destruct (IH (run_sample d s)) as [n [t [Ht [Hm _]]]].
      exists (S n), (r :: t). rewrite Ht, Hr, <- app_assoc. simpl.
      rewrite Hs, Hm. repeat split. discriminate.
Qed.

Lemma insertSampleData_nonempty (d : db) :
  rows d <> [] -> insertSampleData d = d.
Proof.
  unfold insertSampleData, Engine.select_count.
  destruct (rows d); [congruence|]. reflexivity.
Qed.

Lemma insertSampleData_empty (d : db) :
  rows d = [] -> insertSampleData d = fold_left run_sample sampleDiseases d.
Proof.
  unfold insertSampleData, Engine.select_count. now intros ->.
Qed.

End Seeding.

(** C8. [insertSampleData] changes nothing when the table has a row, and
    on an empty table appends samples in their order, all five when the
    rowids allow.  Run a second time it changes nothing more, so the
    table never holds more than the five samples on top of what it had. *)
Theorem seeding_idempotent (d : db) :
  insertSampleData (insertSampleData d) = insertSampleData d
  /\ (rows d = [] \/ insertSampleData d = d)
  /\ (exists n,
        map sample_of (rows (insertSampleData d))
        = (map sample_of (rows d) ++ firstn n sampleDiseases)%list
        /\ (rows d = [] \/ n = 0%nat))
  /\ (length (rows (insertSampleData (insertSampleData d)))
      <= Nat.max 5 (length (rows d)))%nat
  /\ map sample_of (rows (insertSampleData Engine.empty)) = sampleDiseases
  /\ insertSampleData (insertSampleData Engine.empty)
     = insertSampleData Engine.empty.
Proof.
  assert (Hidem : insertSampleData (insertSampleData d) = insertSampleData d).
  { destruct (rows d) as [|x l] eqn:Hd.
    - rewrite (insertSampleData_empty d Hd).
      destruct (fold_run_sample_rows sampleDiseases d) as [n [t [Ht [_ Hsame]]]].
      destruct t as [|y t].
      + rewrite (Hsame eq_refl), (insertSampleData_empty d Hd).
        exact (Hsame eq_refl).
      + apply insertSampleData_nonempty. rewrite Ht, Hd. discriminate.
    - rewrite (insertSampleData_nonempty d) by (rewrite Hd; discriminate).
      apply insertSampleData_nonempty. rewrite Hd. discriminate. }
  assert (Hpart : exists n,
             map sample_of (rows (insertSampleData d))
             = (map sample_of (rows d) ++ firstn n sampleDiseases)%list
             /\ (rows d = [] \/ n = 0%nat)).
  { destruct (rows d) as [|x l] eqn:Hd.
    - rewrite (insertSampleData_empty d Hd).
      destruct (fold_run_sample_rows sampleDiseases d) as [n [t [Ht [Hm _]]]].
      exists n. rewrite Ht, map_app, Hm, Hd. split; [reflexivity | now left].
    - exists 0%nat.
      rewrite (insertSampleData_nonempty d) by (rewrite Hd; discriminate).
      rewrite Hd. simpl. rewrite app_nil_r. split; [reflexivity | now right]. }
  split; [exact Hidem|]. split.
  { destruct (rows d) as [|x l] eqn:Hd; [now left|]. right.
    apply insertSampleData_nonempty. rewrite Hd. discriminate. }
  split; [exact Hpart|]. split.
  { rewrite Hidem. destruct Hpart as [n [Hn Hcase]].
    apply (f_equal (@length sample)) in Hn.
    rewrite length_map, length_app, length_map, length_firstn in Hn.
    change (length sampleDiseases) with 5%nat in Hn. rewrite Hn.
    destruct Hcase as [E|E]; rewrite E; cbn [length]; lia. }
  split; vm_compute; reflexivity.
Qed.

(** ** Invariants of the runs *)

Section Invariants.

Variable P : db -> Prop.

Hypothesis P_insert :
  forall d v k d', P d -> Engine.insert d v = Ok (k, d') -> P d'.
Hypothesis P_update :
  forall d v k c d', P d -> Engine.update d v k = Ok (c, d') -> P d'.
Hypothesis P_delete :
  forall d k c d', P d -> Engine.delete d k = Ok (c, d') -> P d'.

Lemma run_sample_preserves (d : db) (s : sample) :
  P d -> P (run_sample d s).
Proof.
  intros Hd. destruct (run_sample_cases d s) as [[_ E]|[k [r [Hi _]]]].
  - now rewrite E.
  - exact (P_insert _ _ _ _ Hd Hi).
Qed.

Lemma insertSampleData_preserves (d : db) :
  P d -> P (insertSampleData d).
Proof.
  unfold insertSampleData, Engine.select_count.
  destruct (Z.of_nat (length (rows d)) =? 0); [|trivial].
  generalize sampleDiseases. intros l. revert d.
  induction l as [|s l IH]; intros d Hd; simpl; [exact Hd|].
  apply IH. now apply run_sample_preserves.
Qed.

(** Every event keeps a property that the three writing statements
    keep. *)
Lemma step_preserves (d : db) (e : event) : P d -> P (step d e).
Proof.
  intros Hd. destruct e as [| |k|f|k f|k|m]; simpl.
  - now apply insertSampleData_preserves.
  - exact Hd.
  - unfold get_disease, Engine.select_by_id. now destruct (find _ _).
  - unfold post_disease.
    destruct (Engine.insert d _) as [e|[k d']] eqn:Hi; simpl; [exact Hd|].
    exact (P_insert _ _ _ _ Hd Hi).
  - unfold put_disease.
    destruct (Engine.update d _ k) as [e|[c d']] eqn:Hu; simpl; [exact Hd|].
    pose proof (P_update _ _ _ _ _ Hd Hu). now destruct (c =? 0).
  - unfold delete_disease.
    destruct (Engine.delete d k) as [e|[c d']] eqn:Hu; simpl; [exact Hd|].
    pose proof (P_delete _ _ _ _ Hd Hu). now destruct (c =? 0).
  - unfold post_chatbot. now destruct (message_toLowerCase m).
Qed.

Lemma run_preserves (es : list event) (d : db) : P d -> P (run d es).
Proof.
  revert d. induction es as [|e es IH]; intros d Hd; simpl; [exact Hd|].
  apply IH. now apply step_preserves.
Qed.

End Invariants.

(** ** Identity of the records *)

Section Identity.

Lemma update_ok (d d' : db) (v : values) (k c : Z) :
  Engine.update d v k = Ok (c, d') -> ids d' = ids d /\ seq d' = seq d.
Proof.
  unfold Engine.update. destruct (Engine.touched d k =? 0).
  - intros H. injection H as _ <-. now split.
  - destruct (Engine.stored k v) as [e|r] eqn:Hs; [discriminate|].
    intros H. injection H as _ <-. split; [|reflexivity].
    unfold ids. cbn [rows]. apply ids_after_update.
    exact (stored_id _ _ _ Hs).
Qed.

Lemma delete_ok (d d' : db) (k c : Z) :
  Engine.delete d k = Ok (c, d') ->
  ids d' = filter (fun j => negb (j =? k)) (ids d) /\ seq d' = seq d.
Proof.
  unfold Engine.delete. intros H. injection H as _ <-.
  split; [apply ids_after_delete | reflexivity].
Qed.

Lemma insert_ids (d d' : db) (v : values) (k : Z) :
  Engine.insert d v = Ok (k, d') -> ids d' = (ids d ++ [k])%list.
Proof.
  intros H. apply insert_ok in H as [r [Hs [Hr _]]].
  unfold ids. rewrite Hr, map_app. simpl.
  now rewrite (stored_id _ _ _ Hs).
Qed.

Lemma NoDup_filter {A : Type} (f : A -> bool) (l : list A) :
  NoDup l -> NoDup (filter f l).
Proof.
  induction 1 as [|x l Hx Hl IH]; simpl; [constructor|].
  destruct (f x); [|exact IH]. constructor; [|exact IH].
  rewrite filter_In. tauto.
Qed.

Lemma NoDup_snoc {A : Type} (x : A) (l : list A) :
  NoDup l -> ~ In x l -> NoDup (l ++ [x]).
Proof.
  induction 1 as [|y l Hy Hl IH]; simpl; intros Hx.
  - constructor; [tauto | constructor].
  - constructor; [|apply IH; tauto].
    rewrite in_app_iff. simpl. intros [H|[H|[]]]; [tauto|]. subst. tauto.
Qed.

Lemma well_formed_empty : well_formed Engine.empty.
Proof. split; constructor. Qed.

Lemma well_formed_insert (d : db) (v : values) (k : Z) (d' : db) :
  well_formed d -> Engine.insert d v = Ok (k, d') -> well_formed d'.
Proof.
  intros [Hnd Hall] Hi. pose proof (insert_fresh _ _ _ _ Hi) as Hfresh.
  pose proof (insert_ids _ _ _ _ Hi) as Hids.
  apply insert_ok in Hi as [r [_ [_ [Hseq [Hpos [Hlt _]]]]]].
  unfold well_formed. rewrite Hids, Hseq.
  split; [now apply NoDup_snoc|].
  apply Forall_app. split.
  - eapply Forall_impl; [|exact Hall]. simpl. intros; lia.
  - constructor; [lia | constructor].
Qed.

Lemma well_formed_update (d : db) (v : values) (k c : Z) (d' : db) :
  well_formed d -> Engine.update d v k = Ok (c, d') -> well_formed d'.
Proof.
  intros Hd Hu. apply update_ok in Hu as [Hids Hseq].
  unfold well_formed. now rewrite Hids, Hseq.
Qed.

Lemma well_formed_delete (d : db) (k c : Z) (d' : db) :
  well_formed d -> Engine.delete d k = Ok (c, d') -> well_formed d'.
Proof.
  intros [Hnd Hall] Hu. apply delete_ok in Hu as [Hids Hseq].
  unfold well_formed. rewrite Hids, Hseq.
  split; [now apply NoDup_filter|].
  rewrite Forall_forall in *. intros j Hj. apply filter_In in Hj as [Hj _].
  now apply Hall.
Qed.

(** Every database the program produces is well formed. *)
Lemma reachable_well_formed (d : db) : reachable d -> well_formed d.
Proof.
  intros [es ->].
  apply (run_preserves well_formed well_formed_insert well_formed_update
           well_formed_delete).
  exact well_formed_empty.
Qed.

Lemma retired_insert (j : Z) (d : db) (v : values) (k : Z) (d' : db) :
  retired j d -> Engine.insert d v = Ok (k, d') -> retired j d'.
Proof.
  intros [Hle Hout] Hi. pose proof (insert_ids _ _ _ _ Hi) as Hids.
  apply insert_ok in Hi as [r [_ [_ [Hseq [_ [Hlt _]]]]]].
  unfold retired. rewrite Hids, Hseq. split; [lia|].
  rewrite in_app_iff. simpl. intros [H|[H|[]]]; [tauto | lia].
Qed.

Lemma retired_update (j : Z) (d : db) (v : values) (k c : Z) (d' : db) :
  retired j d -> Engine.update d v k = Ok (c, d') -> retired j d'.
Proof.
  intros Hd Hu. apply update_ok in Hu as [Hids Hseq].
  unfold retired. now rewrite Hids, Hseq.
Qed.

Lemma retired_delete (j : Z) (d : db) (k c : Z) (d' : db) :
  retired j d -> Engine.delete d k = Ok (c, d') -> retired j d'.
Proof.
  intros [Hle Hout] Hu. apply delete_ok in Hu as [Hids Hseq].
  unfold retired. rewrite Hids, Hseq. split; [exact Hle|].
  rewrite filter_In. tauto.
Qed.

(** A retired id stays retired whatever happens next. *)
Lemma retired_forever (j : Z) (d : db) (es : list event) :
  retired j d -> retired j (run d es).
Proof.
  apply (run_preserves (retired j) (retired_insert j) (retired_update j)
           (retired_delete j)).
Qed.

(** A successful delete retires the id. *)
Lemma delete_retires (d : db) (k : Z) :
  well_formed d -> In k (ids d) -> retired k (snd (delete_disease d k)).
Proof.
  intros [_ Hall] Hin. rewrite Forall_forall in Hall.
  pose proof (Hall k Hin) as Hk.
  unfold delete_disease, Engine.delete, retired.
  destruct (Engine.touched d k =? 0); unfold ids; cbn [snd rows seq];
    rewrite ids_after_delete, filter_In, Z.eqb_refl; simpl;
    (split; [lia | intros [_ H]; discriminate]).
Qed.

Lemma delete_sent_present (d : db) (k : Z) :
  fst (delete_disease d k)
  = Sent (res_json (BMessage "Disease deleted successfully")) ->
  In k (ids d).
Proof.
  intros H. destruct (in_dec Z.eq_dec k (ids d)) as [Hin|Hout];
    [exact Hin|].
  unfold delete_disease, Engine.delete in H.
  rewrite (touched_absent d k Hout) in H. discriminate.
Qed.

Lemma unique_row (k : Z) (l : list disease) :
  NoDup (map id l) -> In k (map id l) ->
  length (filter (fun r => id r =? k) l) = 1%nat.
Proof.
  induction l as [|r l IH]; simpl; [tauto|]. intros Hnd Hin.
  inversion Hnd as [|x xs Hx Hxs]; subst.
  destruct (Z.eqb_spec (id r) k) as [E|E].
  - subst k. simpl. now rewrite (proj1 (filter_absent (id r) l Hx)).
  - apply IH; [exact Hxs | tauto].
Qed.

End Identity.

(** C9. In every database the program can produce, no id occurs twice
    and each id in the table selects exactly one row; once a delete of an
    id has succeeded, that id is in no later table, after any sequence of
    starts and requests, and no later create returns it. *)
Theorem ids_unique_and_never_reused (d : db) :
  reachable d ->
  NoDup (ids d)
  /\ (forall k, In k (ids d) ->
        length (filter (fun r => id r =? k) (rows d)) = 1%nat)
  /\ (forall k es,
        fst (delete_disease d k)
        = Sent (res_json (BMessage "Disease deleted successfully")) ->
        ~ In k (ids (run (snd (delete_disease d k)) es))
        /\ forall f msg k' d',
             post_disease (run (snd (delete_disease d k)) es) f
             = (Sent (res_json (BAdded msg k')), d') ->
             k' <> k).
Proof.
  intros Hr. pose proof (reachable_well_formed d Hr) as Hwf.
  split; [exact (proj1 Hwf)|]. split.
  { intros k Hk. apply unique_row; [exact (proj1 Hwf) | exact Hk]. }
  intros k es Hdel.
  pose proof (delete_retires d k Hwf (delete_sent_present d k Hdel)) as Hret.
  pose proof (retired_forever k _ es Hret) as [Hle Hout].
  split; [exact Hout|].
  intros f msg k' d' Hpost. unfold post_disease in Hpost.
  destruct (Engine.insert _ (bind_fields f)) as [e|[k0 d0]] eqn:Hi;
    [discriminate|].
  injection Hpost as _ Hk _. subst k0.
  apply insert_ok in Hi as [_ [_ [_ [_ [_ [Hlt _]]]]]]. lia.
Qed.

Lemma ids_unique_and_never_reused_witness :
  reachable seeded
  /\ NoDup (ids seeded)
  /\ (forall es,
        ~ In 3 (ids (run (snd (delete_disease seeded 3)) es))).
Proof.
  assert (H : reachable seeded) by (exists [Start]; reflexivity).
  split; [exact H|].
  destruct (ids_unique_and_never_reused seeded H) as [Hnd [_ Hre]].
  split; [exact Hnd|]. intros es.
  refine (proj1 (Hre 3 es _)). vm_compute; reflexivity.
Defined.

(** * Further properties of the routes *)

(** ** The responder on ordinary and on empty messages *)

Section ResponderMore.

Lemma find_ext {A : Type} (f g : A -> bool) (l : list A) :
  (forall x, f x = g x) -> find f l = find g l.
Proof.
  intros H. induction l as [|x l IH]; simpl; [reflexivity|].
  now rewrite H, IH.
Qed.

Lemma includes_empty (s : string) : includes s "" = true.
Proof. apply includes_app. now exists "", s. Qed.

(** The pattern of the empty message matches every text. *)
Lemma like_everything (s : string) : like "%%" s = true.
Proof.
  rewrite like_percent, <- (string_app_empty_r s).
  now apply any_run_at.
Qed.

Lemma where_like_all (r : disease) : Engine.where_like "%%" r = true.
Proof.
  unfold Engine.where_like, LIKE. change (c_str "%%") with "%%".
  now rewrite !like_everything.
Qed.

Lemma skip_continuation_tail (s : string) :
  exists u, s = u ++ skip_continuation s.
Proof.
  induction s as [|c s [u IH]]; simpl; [now exists ""|].
  destruct (continuation c); [|now exists ""].
  exists (String c u). simpl. now rewrite <- IH.
Qed.

Lemma skip_char_tail (s : string) : exists u, s = u ++ skip_char s.
Proof.
  destruct s as [|c s]; simpl; [now exists ""|].
  destruct (lead c).
  - destruct (skip_continuation_tail s) as [u Hu].
    exists (String c u). simpl. now rewrite <- Hu.
  - now exists (String c "").
Qed.

(** A run of ordinary characters anywhere in a pattern has to occur, up
    to case, in every text the pattern matches. *)
Lemma like_literal_run (kw b a s : string) :
  plain kw = true ->
  like (a ++ kw ++ b) s = true ->
  exists x y z, s = x ++ y ++ z /\ toLowerCase y = toLowerCase kw.
Proof.
  intros Hkw. revert s. induction a as [|c a IH]; intros s H.
  - simpl in H. apply (like_plain_head kw b s Hkw) in H.
    destruct H as [y [z [Hs [Hy _]]]]. now exists "", y, z.
  - change (String c a ++ kw ++ b) with (String c (a ++ kw ++ b)) in H.
    destruct (Ascii.eqb_spec c "%") as [->|Hc].
    + rewrite like_percent in H.
      apply any_run_tail in H as [p [t [Hs Ht]]].
      destruct (IH t Ht) as [x [y [z [Hxyz Hy]]]].
      exists (p ++ x), y, z. split; [|exact Hy].
      now rewrite Hs, Hxyz, string_app_assoc.
    + destruct (Ascii.eqb_spec c "_") as [->|Hu].
      * rewrite like_underscore in H.
        destruct s as [|e s]; [discriminate|].
        destruct (IH _ H) as [x [y [z [Hxyz Hy]]]].
        destruct (skip_char_tail (String e s)) as [u Hu].
        exists (u ++ x), y, z. split; [|exact Hy].
        now rewrite string_app_assoc, <- Hxyz.
      * apply Ascii.eqb_neq in Hc, Hu. rewrite (like_literal c _ s Hc Hu) in H.
        destruct s as [|e s]; [discriminate|].
        apply andb_prop in H as [_ H].
        destruct (IH s H) as [x [y [z [Hxyz Hy]]]].
        exists (String e x), y, z. split; [|exact Hy].
        simpl. now rewrite Hxyz.
Qed.

(** The same for the pattern of the route and a stored text. *)
Lemma pattern_word_in_text (m kw f : string) :
  plain kw = true -> ascii_text m = true ->
  includes (toLowerCase m) kw = true ->
  LIKE (LOWER f) ("%" ++ toLowerCase m ++ "%") = true ->
  includes (toLowerCase f) (toLowerCase kw) = true.
Proof.
  intros Hkw Ha Hin Hlike. unfold LIKE, LOWER in Hlike.
  rewrite (c_str_pattern m Ha) in Hlike.
  apply includes_app in Hin as [a [b Hm]]. rewrite Hm in Hlike.
  replace ("%" ++ (a ++ kw ++ b) ++ "%")
    with (("%" ++ a) ++ kw ++ (b ++ "%")) in Hlike
    by (simpl; now rewrite !string_app_assoc).
  apply like_literal_run in Hlike; [|exact Hkw].
  destruct Hlike as [x [y [z [Hf Hy]]]].
  destruct (c_str_head (toLowerCase f)) as [t Ht]. rewrite Hf in Ht.
  assert (Hl : toLowerCase (x ++ y ++ z ++ t) = x ++ y ++ z ++ t).
  { rewrite <- (string_app_assoc y z t), <- (string_app_assoc x (y ++ z) t).
    rewrite <- Ht. apply toLowerCase_idem. }
  apply lower_piece in Hl as [_ Hl]. apply lower_piece in Hl as [Hl _].
  apply includes_app. exists x, (z ++ t).
  rewrite Ht, !string_app_assoc. now rewrite <- Hy, Hl.
Qed.

(** What the route has sent when its response carries a row. *)
Lemma post_chatbot_row (d : db) (m reply : string) (r : disease) :
  fst (post_chatbot d (JStr m)) = Sent (res_json (BReply reply (Some r))) ->
  (exists rest,
     filter (Engine.where_like ("%" ++ toLowerCase m ++ "%")) (rows d)
     = r :: rest)
  /\ reply = spec_reply r (toLowerCase m).
Proof.
  unfold post_chatbot, Engine.select_like. cbn [message_toLowerCase fst].
  destruct (rows d) as [|x l] eqn:Hrows; [discriminate|].
  destruct (MAX_LIKE_PATTERN_LENGTH <? _); [discriminate|].
  rewrite chatbot_rows_ok.
  destruct (filter _ (x :: l)) as [|r0 rest]; [discriminate|].
  cbn [spec_body]. intros H. injection H as Hreply Hr. subst r0.
  split; [now exists rest | now rewrite Hreply].
Qed.

Lemma filter_head_split {A : Type} (f : A -> bool) (l : list A) (r : A)
      (rest : list A) :
  filter f l = r :: rest ->
  f r = true
  /\ exists before after,
       l = (before ++ r :: after)%list
       /\ forallb (fun x => negb (f x)) before = true.
Proof.
  induction l as [|x l IH]; simpl; [discriminate|].
  destruct (f x) eqn:Hx.
  - intros H. injection H as -> _. split; [exact Hx|]. now exists [], l.
  - intros H. destruct (IH H) as [Hr [before [after [Hl Hb]]]].
    split; [exact Hr|]. exists (x :: before), after.
    split; [now rewrite Hl|]. cbn [forallb]. now rewrite Hx, Hb.
Qed.

Lemma spec_reply_heading (r : disease) (q : string) :
  prefix (heading r) (spec_reply r q) = true.
Proof.
  apply prefix_app. unfold spec_reply.
  destruct (find _ rules) as [[ks s]|].
  - exists (block r s ++ nl ++ nl). reflexivity.
  - eexists. unfold everything. reflexivity.
Qed.

End ResponderMore.

(** X1. For a short ASCII message that contains neither [%] nor [_], on
    a table whose searched texts hold no NUL, the chatbot searches by
    substring: the [WHERE] clause keeps a row exactly when its lower-cased
    name, symptoms or causes contains the lower-cased message, and the
    route answers from the first such row in store order, or with the
    fallback when there is none. *)
Theorem plain_message_substring_search (d : db) (m : string) :
  ascii_text m = true -> plain m = true -> short m ->
  forallb searchable (rows d) = true ->
  (forall r, In r (rows d) ->
     Engine.where_like ("%" ++ toLowerCase m ++ "%") r = spec_matches m r)
  /\ post_chatbot d (JStr m)
     = (Sent (res_json
          match find (spec_matches m) (rows d) with
          | None => BReply fallback_reply None
          | Some r => BReply (spec_reply r (toLowerCase m)) (Some r)
          end), d).
Proof.
  intros Ha Hp Hs Hd. split.
  - intros r Hr. apply where_like_plain; [exact Hp | exact Ha|].
    rewrite forallb_forall in Hd. now apply Hd.
  - rewrite (post_chatbot_plain d m Ha Hp Hs Hd), find_filter_head.
    now destruct (filter _ (rows d)).
Qed.

Lemma plain_message_substring_search_witness :
  ascii_text "FEVER" = true /\ plain "FEVER" = true /\ short "FEVER"
  /\ forallb searchable (rows seeded) = true
  /\ post_chatbot seeded (JStr "FEVER")
     = (Sent (res_json
          match find (spec_matches "FEVER") (rows seeded) with
          | None => BReply fallback_reply None
          | Some r => BReply (spec_reply r (toLowerCase "FEVER")) (Some r)
          end), seeded).
Proof.
  assert (Hs : short "FEVER")
    by (unfold short, MAX_LIKE_PATTERN_LENGTH; simpl; lia).
  split; [reflexivity|]. split; [reflexivity|]. split; [exact Hs|].
  split; [reflexivity|].
  exact (proj2 (plain_message_substring_search seeded "FEVER"
                  eq_refl eq_refl Hs eq_refl)).
Defined.

(** X2. The empty message matches every row: on a store that has rows the
    chatbot answers with the first row and all four sections, and with
    the fallback only when the table is empty. *)
Theorem empty_message_gets_first_row (d : db) :
  post_chatbot d (JStr "")
  = (Sent (res_json
       match rows d with
       | [] => BReply fallback_reply None
       | r :: _ => BReply (everything r) (Some r)
       end), d).
Proof.
  unfold post_chatbot, Engine.select_like. cbn [message_toLowerCase toLowerCase].
  destruct (rows d) as [|r l]; [reflexivity|].
  change (MAX_LIKE_PATTERN_LENGTH <? Z.of_nat (String.length ("%" ++ "" ++ "%")))
    with false.
  cbn [filter]. change ("%" ++ "" ++ "%") with "%%".
  rewrite (where_like_all r), chatbot_rows_ok. reflexivity.
Qed.

(** X3. A word of the message has to occur in the row that is returned:
    when the lower-cased ASCII message contains a run [kw] of characters
    without [%] and [_], such as a category keyword, the chatbot returns a
    row only if that row's name, symptoms or causes contains [kw] up to
    case. *)
Theorem message_word_occurs_in_row (d : db) (m kw reply : string) (r : disease) :
  ascii_text m = true ->
  plain kw = true ->
  includes (toLowerCase m) kw = true ->
  fst (post_chatbot d (JStr m)) = Sent (res_json (BReply reply (Some r))) ->
  spec_matches kw r = true.
Proof.
  intros Ha Hkw Hin Hsent. apply post_chatbot_row in Hsent as [[rest Hf] _].
  apply filter_head_split in Hf as [Hw _]. unfold Engine.where_like in Hw.
  unfold spec_matches.
  apply orb_true_iff in Hw as [Hw|Hw]; [apply orb_true_iff in Hw as [Hw|Hw]|];
    apply (pattern_word_in_text m kw _ Hkw Ha Hin) in Hw;
    rewrite Hw, ?orb_true_r; reflexivity.
Qed.

Lemma message_word_occurs_in_row_witness :
  exists r reply,
    ascii_text "No Symptoms" = true
    /\ plain "symptom" = true
    /\ includes (toLowerCase "No Symptoms") "symptom" = true
    /\ fst (post_chatbot seeded (JStr "No Symptoms"))
       = Sent (res_json (BReply reply (Some r)))
    /\ spec_matches "symptom" r = true.
Proof.
  eexists. eexists. split; [reflexivity|]. split; [reflexivity|].
  split; [reflexivity|].
  assert (H : fst (post_chatbot seeded (JStr "No Symptoms"))
              = Sent (res_json (BReply _ (Some _))))
    by (vm_compute; reflexivity).
  split; [exact H|].
  exact (message_word_occurs_in_row seeded "No Symptoms" "symptom" _ _
           eq_refl eq_refl eq_refl H).
Defined.

(** X4. When the chatbot's response to an ASCII message carries a
    [disease], it is a row of the table as it stands, it satisfies the
    query's [WHERE] clause, no row before it does, and the reply opens
    with the heading made of its name. *)
Theorem chatbot_row_is_first_stored_match (d : db) (m reply : string) (r : disease) :
  ascii_text m = true ->
  fst (post_chatbot d (JStr m)) = Sent (res_json (BReply reply (Some r))) ->
  Engine.where_like ("%" ++ toLowerCase m ++ "%") r = true
  /\ (exists before after,
        rows d = (before ++ r :: after)%list
        /\ forallb (fun x => negb (Engine.where_like
                                     ("%" ++ toLowerCase m ++ "%") x))
                   before = true)
  /\ prefix (heading r) reply = true.
Proof.
  intros _ Hsent. apply post_chatbot_row in Hsent as [[rest Hf] ->].
  apply filter_head_split in Hf as [Hw Hsplit].
  split; [exact Hw|]. split; [exact Hsplit | apply spec_reply_heading].
Qed.

Lemma chatbot_row_is_first_stored_match_witness :
  exists r reply,
    ascii_text "mosquito" = true
    /\ fst (post_chatbot seeded (JStr "mosquito"))
       = Sent (res_json (BReply reply (Some r)))
    /\ name r = "Dengue"
    /\ prefix (heading r) reply = true.
Proof.
  eexists. eexists. split; [reflexivity|].
  assert (H : fst (post_chatbot seeded (JStr "mosquito"))
              = Sent (res_json (BReply _ (Some _))))
    by (vm_compute; reflexivity).
  split; [exact H|]. split; [reflexivity|].
  exact (proj2 (proj2 (chatbot_row_is_first_stored_match seeded "mosquito"
                         _ _ eq_refl H))).
Defined.

(** X17. A message too long for [LIKE] fails the query: for an ASCII
    message of 49,999 bytes or more on a table that has a row, the route
    answers 500 with the engine's message and sends neither a reply nor
    the fallback. *)
Theorem long_message_fails (d : db) (m : string) :
  ascii_text m = true ->
  rows d <> [] ->
  MAX_LIKE_PATTERN_LENGTH < Z.of_nat (String.length m) + 2 ->
  post_chatbot d (JStr m)
  = (Sent (mkResponse 500
       (BError "SQLITE_ERROR: LIKE or GLOB pattern too complex")), d).
Proof.
  intros _ Hrows Hlong. unfold post_chatbot, Engine.select_like.
  cbn [message_toLowerCase]. destruct (rows d) as [|r l]; [congruence|].
  rewrite pattern_length.
  destruct (Z.ltb_spec MAX_LIKE_PATTERN_LENGTH (Z.of_nat (String.length m) + 2));
    [reflexivity | lia].
Qed.

Lemma long_message_fails_witness :
  ascii_text (string_of_list_ascii (repeat "a"%char (Z.to_nat 49999))) = true
  /\ rows seeded <> []
  /\ post_chatbot seeded
       (JStr (string_of_list_ascii (repeat "a"%char (Z.to_nat 49999))))
     = (Sent (mkResponse 500
          (BError "SQLITE_ERROR: LIKE or GLOB pattern too complex")), seeded).
Proof.
  assert (Ha : ascii_text
                 (string_of_list_ascii (repeat "a"%char (Z.to_nat 49999)))
               = true) by (vm_compute; reflexivity).
  assert (Hr : rows seeded <> []) by (vm_compute; discriminate).
  assert (Hl : MAX_LIKE_PATTERN_LENGTH
               < Z.of_nat (String.length
                   (string_of_list_ascii (repeat "a"%char (Z.to_nat 49999))))
                 + 2) by (vm_compute; reflexivity).
  split; [exact Ha|]. split; [exact Hr|].
  exact (long_message_fails seeded _ Ha Hr Hl).
Defined.

(** ** The catalogue routes on bad input and in sequence *)

Section CatalogueMore.

Lemma affinity_bound (v : jsval) (t : string) :
  Engine.text_affinity (bind v) = Some t -> unbound v = false.
Proof. destruct v; simpl; intros H; try reflexivity; discriminate. Qed.

(** A body that lacks a field fails the [NOT NULL] constraint. *)
Lemma stored_lacks_field (k : Z) (f : fields) :
  lacks_field f = true ->
  exists c, Engine.stored k (bind_fields f) = Err (NotNullFailed c).
Proof.
  unfold lacks_field, Engine.stored, bind_fields. cbn [v_name v_symptoms
    v_causes v_prevention v_when_to_see_doctor]. intros H.
  destruct (Engine.text_affinity (bind (f_name f))) eqn:E1;
    [|eexists; reflexivity].
  destruct (Engine.text_affinity (bind (f_symptoms f))) eqn:E2;
    [|eexists; reflexivity].
  destruct (Engine.text_affinity (bind (f_causes f))) eqn:E3;
    [|eexists; reflexivity].
  destruct (Engine.text_affinity (bind (f_prevention f))) eqn:E4;
    [|eexists; reflexivity].
  destruct (Engine.text_affinity (bind (f_when_to_see_doctor f))) eqn:E5;
    [|eexists; reflexivity].
  apply affinity_bound in E1, E2, E3, E4, E5.
  rewrite E1, E2, E3, E4, E5 in H. discriminate.
Qed.

Lemma get_disease_by_find (d1 d2 : db) (j : Z) :
  find (fun r => id r =? j) (rows d1) = find (fun r => id r =? j) (rows d2) ->
  fst (get_disease d1 j) = fst (get_disease d2 j).
Proof.
  intros H. unfold get_disease, Engine.select_by_id. rewrite H.
  now destruct (find _ (rows d2)).
Qed.

Lemma find_filter_other (j k : Z) (l : list disease) :
  j <> k ->
  find (fun r => id r =? j) (filter (fun r => negb (id r =? k)) l)
  = find (fun r => id r =? j) l.
Proof.
  intros Hjk. induction l as [|x l IH]; simpl; [reflexivity|].
  destruct (Z.eqb_spec (id x) k) as [Ek|Ek]; simpl.
  - destruct (Z.eqb_spec (id x) j); [congruence | exact IH].
  - now rewrite IH.
Qed.

Lemma find_map_other (j k : Z) (r : disease) (l : list disease) :
  id r = k -> j <> k ->
  find (fun x => id x =? j)
       (map (fun old => if id old =? k then r else old) l)
  = find (fun x => id x =? j) l.
Proof.
  intros Hr Hjk. induction l as [|x l IH]; simpl; [reflexivity|].
  destruct (Z.eqb_spec (id x) k) as [Ek|Ek].
  - destruct (Z.eqb_spec (id r) j); [congruence|].
    destruct (Z.eqb_spec (id x) j); [congruence | exact IH].
  - now rewrite IH.
Qed.

Lemma find_app_other (j : Z) (r : disease) (l : list disease) :
  id r <> j ->
  find (fun x => id x =? j) (l ++ [r]) = find (fun x => id x =? j) l.
Proof.
  intros Hr. induction l as [|x l IH]; simpl.
  - now destruct (Z.eqb_spec (id r) j).
  - now rewrite IH.
Qed.

Lemma touched_by_ids (d : db) (k : Z) :
  Engine.touched d k
  = Z.of_nat (length (filter (fun j => j =? k) (ids d))).
Proof.
  unfold Engine.touched, ids. f_equal.
  induction (rows d) as [|x l IH]; simpl; [reflexivity|].
  destruct (id x =? k); simpl; now rewrite IH.
Qed.

Lemma map_update_twice (k : Z) (r : disease) (l : list disease) :
  id r = k ->
  map (fun old => if id old =? k then r else old)
      (map (fun old => if id old =? k then r else old) l)
  = map (fun old => if id old =? k then r else old) l.
Proof.
  intros Hr. induction l as [|x l IH]; simpl; [reflexivity|].
  rewrite IH. f_equal. destruct (Z.eqb_spec (id x) k) as [E|E].
  - now rewrite Hr, Z.eqb_refl.
  - destruct (Z.eqb_spec (id x) k); [contradiction | reflexivity].
Qed.

Lemma filter_appended_fresh (k : Z) (r : disease) (l : list disease) :
  id r = k -> ~ In k (map id l) ->
  filter (fun x => negb (id x =? k)) (l ++ [r]) = l.
Proof.
  intros Hr Hk. rewrite filter_app. simpl. rewrite Hr, Z.eqb_refl. simpl.
  rewrite app_nil_r. exact (proj2 (filter_absent k l Hk)).
Qed.

Lemma max_rowid_le (b : Z) (l : list disease) :
  0 <= b -> Forall (fun j => j <= b) (map id l) -> Engine.max_rowid l <= b.
Proof.
  intros Hb. induction l as [|x l IH]; simpl; intros H; [exact Hb|].
  inversion H; subst. specialize (IH H3). lia.
Qed.

(** The update route, case by case. *)
Lemma put_disease_eq (d : db) (k : Z) (f : fields) :
  put_disease d k f
  = if Engine.touched d k =? 0 then (not_found, d)
    else match Engine.stored k (bind_fields f) with
         | Err e => (server_error e, d)
         | Ok r =>
             (Sent (res_json (BMessage "Disease updated successfully")),
              mkDb (map (fun old => if id old =? k then r else old) (rows d))
                   (seq d))
         end.
Proof.
  unfold put_disease, Engine.update.
  destruct (Engine.touched d k =? 0) eqn:Et; [reflexivity|].
  destruct (Engine.stored k (bind_fields f)); [reflexivity|].
  now rewrite Et.
Qed.

End CatalogueMore.

(** X5. Creating a record from a body in which one of the five fields is
    absent or [null] answers 500 with the engine's message and stores
    nothing; while rowids remain, the message is that of the [NOT NULL]
    constraint. *)
Theorem create_without_field_fails (d : db) (f : fields) :
  lacks_field f = true ->
  exists e,
    post_disease d f = (server_error e, d)
    /\ (Z.max (seq d) (Engine.max_rowid (rows d)) < MAX_ROWID ->
        exists c, e = NotNullFailed c).
Proof.
  intros Hf. unfold post_disease, Engine.insert.
  destruct (Z.leb_spec MAX_ROWID (Z.max (seq d) (Engine.max_rowid (rows d))))
    as [Hfull|Hroom].
  - exists DatabaseFull. split; [reflexivity | lia].
  - destruct (stored_lacks_field
                (Z.max (seq d) (Engine.max_rowid (rows d)) + 1) f Hf)
      as [c Hc].
    rewrite Hc. exists (NotNullFailed c). split; [reflexivity|].
    intros _. now exists c.
Qed.

Lemma create_without_field_fails_witness :
  lacks_field (mkFields (JStr "Flu") JUndefined (JStr "Virus") JNull
                        (JStr "Soon")) = true
  /\ exists e,
       post_disease seeded
         (mkFields (JStr "Flu") JUndefined (JStr "Virus") JNull (JStr "Soon"))
       = (server_error e, seeded)
       /\ (Z.max (seq seeded) (Engine.max_rowid (rows seeded)) < MAX_ROWID ->
           exists c, e = NotNullFailed c).
Proof.
  split; [reflexivity|].
  apply (create_without_field_fails seeded). reflexivity.
Defined.

(** X6. Updating a record that is in the store from a body in which one
    of the five fields is absent or [null] answers 500 with the message
    of the [NOT NULL] constraint and changes no column of any row. *)
Theorem update_without_field_fails (d : db) (k : Z) (f : fields) :
  In k (ids d) ->
  lacks_field f = true ->
  exists c, put_disease d k f = (server_error (NotNullFailed c), d).
Proof.
  intros Hin Hf. pose proof (touched_present d k Hin) as Ht.
  unfold put_disease, Engine.update.
  destruct (Z.eqb_spec (Engine.touched d k) 0) as [E|_]; [lia|].
  destruct (stored_lacks_field k f Hf) as [c Hc]. rewrite Hc.
  now exists c.
Qed.

Lemma update_without_field_fails_witness :
  In 4 (ids seeded)
  /\ lacks_field (mkFields (JStr "Cold") (JStr "Cough") JNull (JStr "Rest")
                           (JStr "Rarely")) = true
  /\ exists c,
       put_disease seeded 4
         (mkFields (JStr "Cold") (JStr "Cough") JNull (JStr "Rest")
                   (JStr "Rarely"))
       = (server_error (NotNullFailed c), seeded).
Proof.
  assert (H : In 4 (ids seeded)) by (vm_compute; tauto).
  split; [exact H|]. split; [reflexivity|].
  apply (update_without_field_fails seeded 4 _ H). reflexivity.
Defined.

(** X7. Deleting a record that is in the store answers 200; afterwards
    reading or updating that id answers 404, every other id reads as
    before, and the counter of ids is where it was. *)
Theorem delete_removes_only_that_id (d : db) (k : Z) :
  In k (ids d) ->
  fst (delete_disease d k)
  = Sent (res_json (BMessage "Disease deleted successfully"))
  /\ get_disease (snd (delete_disease d k)) k
     = (not_found, snd (delete_disease d k))
  /\ (forall f, put_disease (snd (delete_disease d k)) k f
                = (not_found, snd (delete_disease d k)))
  /\ (forall j, j <> k ->
        fst (get_disease (snd (delete_disease d k)) j)
        = fst (get_disease d j))
  /\ seq (snd (delete_disease d k)) = seq d.
Proof.
  intros Hin. pose proof (touched_present d k Hin) as Ht.
  unfold delete_disease, Engine.delete.
  destruct (Z.eqb_spec (Engine.touched d k) 0) as [E|_]; [lia|].
  cbn [fst snd].
  assert (Hout : ~ In k (ids (mkDb (filter (fun r => negb (id r =? k))
                                           (rows d)) (seq d)))).
  { unfold ids. cbn [rows]. rewrite ids_after_delete, filter_In, Z.eqb_refl.
    simpl. intros [_ H]; discriminate. }
  split; [reflexivity|]. split.
  { unfold get_disease, Engine.select_by_id. now rewrite find_absent. }
  split.
  { intros f. unfold put_disease, Engine.update.
    now rewrite (touched_absent _ k Hout). }
  split; [|reflexivity].
  intros j Hj. apply get_disease_by_find. cbn [rows].
  now apply find_filter_other.
Qed.

Lemma delete_removes_only_that_id_witness :
  In 2 (ids seeded)
  /\ fst (delete_disease seeded 2)
     = Sent (res_json (BMessage "Disease deleted successfully"))
  /\ get_disease (snd (delete_disease seeded 2)) 2
     = (not_found, snd (delete_disease seeded 2)).
Proof.
  assert (H : In 2 (ids seeded)) by (vm_compute; tauto).
  split; [exact H|].
  destruct (delete_removes_only_that_id seeded 2 H) as [H1 [H2 _]].
  split; [exact H1 | exact H2].
Defined.

(** X8. An update, whatever its id and its body and whether it succeeds
    or not, keeps the ids of the table and their order, and leaves every
    record with another id as it was. *)
Theorem update_touches_only_that_id (d : db) (k : Z) (f : fields) :
  ids (snd (put_disease d k f)) = ids d
  /\ seq (snd (put_disease d k f)) = seq d
  /\ forall j, j <> k ->
       fst (get_disease (snd (put_disease d k f)) j) = fst (get_disease d j).
Proof.
  unfold put_disease, Engine.update.
  destruct (Engine.touched d k =? 0) eqn:Et.
  - cbn [snd]. now repeat split.
  - destruct (Engine.stored k (bind_fields f)) as [e|r] eqn:Hs.
    + cbn [snd]. now repeat split.
    + pose proof (stored_id _ _ _ Hs) as Hr. rewrite Et. cbn [snd].
      split; [unfold ids; cbn [rows]; now apply ids_after_update|].
      split; [reflexivity|].
      intros j Hj. apply get_disease_by_find. cbn [rows].
      now apply find_map_other.
Qed.

(** X9. A create that returns an id puts the new row, under that id, at
    the end of the listing; the id is larger than every id already in the
    table, and every other id reads as before. *)
Theorem create_appends_to_listing (d d' : db) (f : fields) (msg : string) (k : Z) :
  post_disease d f = (Sent (res_json (BAdded msg k)), d') ->
  (exists r,
     id r = k
     /\ get_diseases d' = (Sent (res_json (BDiseases (rows d ++ [r]))), d'))
  /\ Forall (fun j => j < k) (ids d)
  /\ forall j, j <> k -> fst (get_disease d' j) = fst (get_disease d j).
Proof.
  unfold post_disease.
  destruct (Engine.insert d _) as [e|[k0 d0]] eqn:Hi; intros H;
    [discriminate|].
  injection H as _ Hk Hd. subst k0 d0.
  apply insert_ok in Hi as [r [Hs [Hr [_ [_ [_ Hall]]]]]].
  pose proof (stored_id _ _ _ Hs) as Hid.
  split.
  { exists r. split; [exact Hid|].
    unfold get_diseases, Engine.select_all. now rewrite Hr. }
  split; [exact Hall|].
  intros j Hj. apply get_disease_by_find. rewrite Hr.
  apply find_app_other. congruence.
Qed.

Lemma create_appends_to_listing_witness :
  exists d' r,
    post_disease seeded (text_fields "Flu" "Fever" "Virus" "Vaccine" "Soon")
    = (Sent (res_json (BAdded "Disease added successfully" 6)), d')
    /\ id r = 6
    /\ get_diseases d'
       = (Sent (res_json (BDiseases (rows seeded ++ [r]))), d').
Proof.
  eexists.
  assert (H : post_disease seeded
                (text_fields "Flu" "Fever" "Virus" "Vaccine" "Soon")
              = (Sent (res_json (BAdded "Disease added successfully" 6)), _))
    by (vm_compute; reflexivity).
  destruct (create_appends_to_listing _ _ _ _ _ H) as [[r [Hr Hl]] _].
  exists r. split; [exact H|]. split; [exact Hr | exact Hl].
Defined.

(** X10. Sending the same update twice leaves the store as the first one
    left it and gets the same answer. *)
Theorem update_twice_is_update_once (d : db) (k : Z) (f : fields) :
  put_disease (snd (put_disease d k f)) k f
  = (fst (put_disease d k f), snd (put_disease d k f)).
Proof.
  rewrite (put_disease_eq d k f).
  destruct (Engine.touched d k =? 0) eqn:Et.
  - cbn [fst snd]. now rewrite put_disease_eq, Et.
  - destruct (Engine.stored k (bind_fields f)) as [e|r] eqn:Hs.
    + cbn [fst snd]. now rewrite put_disease_eq, Et, Hs.
    + pose proof (stored_id _ _ _ Hs) as Hr. cbn [fst snd].
      assert (Ht : Engine.touched
                     (mkDb (map (fun old => if id old =? k then r else old)
                                (rows d)) (seq d)) k
                   = Engine.touched d k).
      { rewrite !touched_by_ids. unfold ids. cbn [rows].
        now rewrite ids_after_update. }
      rewrite put_disease_eq, Ht, Et, Hs. cbn [rows seq].
      now rewrite map_update_twice.
Qed.

(** X11. Deleting a record right after the create that returned its id
    answers 200 and gives back the rows there were before the create, but
    not the id: the counter stays at the deleted id, and the next create
    returns the following one. *)
Theorem delete_after_create (d d' : db) (f : fields) (msg : string) (k : Z) :
  post_disease d f = (Sent (res_json (BAdded msg k)), d') ->
  delete_disease d' k
  = (Sent (res_json (BMessage "Disease deleted successfully")),
     mkDb (rows d) k)
  /\ forall f2 msg2 k2 d2,
       post_disease (mkDb (rows d) k) f2
       = (Sent (res_json (BAdded msg2 k2)), d2) ->
       k2 = k + 1.
Proof.
  unfold post_disease at 1.
  destruct (Engine.insert d _) as [e|[k0 d0]] eqn:Hi; intros H;
    [discriminate|].
  injection H as _ Hk Hd. subst k0 d0.
  pose proof (insert_fresh _ _ _ _ Hi) as Hfresh.
  pose proof (insert_ids _ _ _ _ Hi) as Hids.
  apply insert_ok in Hi as [r [Hs [Hr [Hseq [Hpos [_ Hall]]]]]].
  pose proof (stored_id _ _ _ Hs) as Hid.
  split.
  - assert (Hin : In k (ids d'))
      by (rewrite Hids, in_app_iff; right; now left).
    pose proof (touched_present d' k Hin) as Ht.
    unfold delete_disease, Engine.delete.
    destruct (Z.eqb_spec (Engine.touched d' k) 0) as [E|_]; [lia|].
    rewrite Hr, Hseq. now rewrite (filter_appended_fresh k r (rows d) Hid Hfresh).
  - intros f2 msg2 k2 d2. unfold post_disease, Engine.insert. cbn [rows seq].
    assert (Hmax : Engine.max_rowid (rows d) <= k).
    { apply max_rowid_le; [lia|]. eapply Forall_impl; [|exact Hall].
      simpl. intros; lia. }
    pose proof (proj1 (max_rowid_bound (rows d))) as H0.
    replace (Z.max k (Engine.max_rowid (rows d))) with k by lia.
    destruct (MAX_ROWID <=? k); [discriminate|].
    destruct (Engine.stored (k + 1) (bind_fields f2)); [discriminate|].
    intros H. now injection H as _ <- _.
Qed.

Lemma delete_after_create_witness :
  exists d',
    post_disease seeded (text_fields "Flu" "Fever" "Virus" "Vaccine" "Soon")
    = (Sent (res_json (BAdded "Disease added successfully" 6)), d')
    /\ delete_disease d' 6
       = (Sent (res_json (BMessage "Disease deleted successfully")),
          mkDb (rows seeded) 6).
Proof.
  eexists.
  assert (H : post_disease seeded
                (text_fields "Flu" "Fever" "Virus" "Vaccine" "Soon")
              = (Sent (res_json (BAdded "Disease added successfully" 6)), _))
    by (vm_compute; reflexivity).
  split; [exact H|].
  exact (proj1 (delete_after_create _ _ _ _ _ H)).
Defined.

(** ** Order of the listing and sequence of the ids *)

Section Order.

Lemma sorted_snoc (k : Z) (l : list Z) :
  StronglySorted Z.lt l -> Forall (fun j => j < k) l ->
  StronglySorted Z.lt (l ++ [k]).
Proof.
  induction 1 as [|x l Hl IH Hx]; simpl; intros Hk.
  - constructor; constructor.
  - inversion Hk; subst. constructor; [now apply IH|].
    apply Forall_app. split; [exact Hx | now constructor].
Qed.

Lemma sorted_filter (f : Z -> bool) (l : list Z) :
  StronglySorted Z.lt l -> StronglySorted Z.lt (filter f l).
Proof.
  induction 1 as [|x l Hl IH Hx]; simpl; [constructor|].
  destruct (f x); [|exact IH]. constructor; [exact IH|].
  rewrite Forall_forall in *. intros j Hj. apply filter_In in Hj as [Hj _].
  now apply Hx.
Qed.

Lemma insert_within (d d' : db) (v : values) (k : Z) :
  Engine.insert d v = Ok (k, d') -> k <= MAX_ROWID.
Proof.
  unfold Engine.insert. destruct (Z.leb_spec MAX_ROWID
    (Z.max (seq d) (Engine.max_rowid (rows d)))) as [_|H]; [discriminate|].
  destruct (Engine.stored _ v); [discriminate|].
  intros E. injection E as <- _. lia.
Qed.

Lemma ordered_empty : ordered Engine.empty.
Proof. split; [constructor | unfold MAX_ROWID; simpl; lia]. Qed.

Lemma ordered_insert (d : db) (v : values) (k : Z) (d' : db) :
  ordered d -> Engine.insert d v = Ok (k, d') -> ordered d'.
Proof.
  intros [Hs Hb] Hi. pose proof (insert_ids _ _ _ _ Hi) as Hids.
  pose proof (insert_within _ _ _ _ Hi) as Hk.
  apply insert_ok in Hi as [r [_ [_ [Hseq [Hpos [_ Hall]]]]]].
  unfold ordered. rewrite Hids, Hseq.
  split; [now apply sorted_snoc | lia].
Qed.

Lemma ordered_update (d : db) (v : values) (k c : Z) (d' : db) :
  ordered d -> Engine.update d v k = Ok (c, d') -> ordered d'.
Proof.
  intros Hd Hu. apply update_ok in Hu as [Hids Hseq].
  unfold ordered. now rewrite Hids, Hseq.
Qed.

Lemma ordered_delete (d : db) (k c : Z) (d' : db) :
  ordered d -> Engine.delete d k = Ok (c, d') -> ordered d'.
Proof.
  intros [Hs Hb] Hu. apply delete_ok in Hu as [Hids Hseq].
  unfold ordered. rewrite Hids, Hseq. split; [now apply sorted_filter | exact Hb].
Qed.

Lemma reachable_ordered (d : db) : reachable d -> ordered d.
Proof.
  intros [es ->].
  apply (run_preserves ordered ordered_insert ordered_update ordered_delete).
  exact ordered_empty.
Qed.

(** In a well-formed database the counter alone decides the next id. *)
Lemma top_is_seq (d : db) :
  well_formed d -> 0 <= seq d ->
  Z.max (seq d) (Engine.max_rowid (rows d)) = seq d.
Proof.
  intros [_ Hall] H0.
  assert (Engine.max_rowid (rows d) <= seq d).
  { apply max_rowid_le; [exact H0|]. eapply Forall_impl; [|exact Hall].
    simpl. intros; lia. }
  lia.
Qed.

(** With a rowid left, a sample becomes the next row. *)
Lemma run_sample_room (d : db) (s : sample) :
  well_formed d -> 0 <= seq d < MAX_ROWID ->
  run_sample d s
  = mkDb (rows d ++ [row_of (seq d + 1) s]) (seq d + 1).
Proof.
  intros Hwf Hb. unfold run_sample, Engine.insert.
  rewrite (top_is_seq d Hwf) by lia.
  destruct (Z.leb_spec MAX_ROWID (seq d)); [lia | reflexivity].
Qed.

Lemma run_sample_well_formed (d : db) (s : sample) :
  well_formed d -> well_formed (run_sample d s).
Proof. apply (run_sample_preserves well_formed well_formed_insert). Qed.

Lemma fold_run_sample_numbered (l : list sample) (d : db) :
  well_formed d -> 0 <= seq d ->
  seq d + Z.of_nat (length l) <= MAX_ROWID ->
  fold_left run_sample l d
  = mkDb (rows d ++ numbered (seq d + 1) l) (seq d + Z.of_nat (length l)).
Proof.
  revert d. induction l as [|s l IH]; intros d Hwf H0 Hroom.
  - simpl. rewrite app_nil_r, Z.add_0_r. now destruct d.
  - cbn [fold_left numbered].
    assert (Hlen : Z.of_nat (length (s :: l)) = Z.of_nat (length l) + 1)
      by (cbn [length]; lia).
    rewrite Hlen in *.
    assert (Hb : 0 <= seq d < MAX_ROWID) by lia.
    pose proof (run_sample_well_formed d s Hwf) as Hwf'.
    rewrite (run_sample_room d s Hwf Hb) in Hwf'.
    rewrite (run_sample_room d s Hwf Hb).
    rewrite (IH _ Hwf') by (cbn [seq]; lia). cbn [rows seq].
    rewrite <- app_assoc. cbn [app]. f_equal. lia.
Qed.

Lemma filter_split_length {A : Type} (f : A -> bool) (l : list A) :
  (length (filter f l) + length (filter (fun x => negb (f x)) l)
   = length l)%nat.
Proof.
  induction l as [|x l IH]; simpl; [reflexivity|].
  destruct (f x); simpl; lia.
Qed.

End Order.

(** X12. In every database the program can produce, the listing is in
    strictly ascending order of id, and every id lies between 1 and the
    largest rowid. *)
Theorem listing_ascending (d : db) :
  reachable d ->
  get_diseases d = (Sent (res_json (BDiseases (rows d))), d)
  /\ StronglySorted Z.lt (map id (rows d))
  /\ Forall (fun k => 1 <= k <= MAX_ROWID) (map id (rows d)).
Proof.
  intros Hr. destruct (reachable_ordered d Hr) as [Hs Hb].
  destruct (reachable_well_formed d Hr) as [_ Hall].
  split; [reflexivity|]. split; [exact Hs|].
  eapply Forall_impl; [|exact Hall]. simpl. intros; lia.
Qed.

Lemma listing_ascending_witness :
  reachable (run Engine.empty
               [Start; DeleteDisease 2;
                PostDisease (text_fields "Flu" "Fever" "Virus" "Vaccine" "Soon")])
  /\ map id (rows (run Engine.empty
               [Start; DeleteDisease 2;
                PostDisease (text_fields "Flu" "Fever" "Virus" "Vaccine" "Soon")]))
     = [1; 3; 4; 5; 6]
  /\ StronglySorted Z.lt
       (map id (rows (run Engine.empty
               [Start; DeleteDisease 2;
                PostDisease (text_fields "Flu" "Fever" "Virus" "Vaccine" "Soon")]))).
Proof.
  assert (H : reachable (run Engine.empty
               [Start; DeleteDisease 2;
                PostDisease (text_fields "Flu" "Fever" "Virus" "Vaccine" "Soon")]))
    by (eexists; reflexivity).
  split; [exact H|]. split; [vm_compute; reflexivity|].
  exact (proj1 (proj2 (listing_ascending _ H))).
Defined.

(** X13. Ids are given out in sequence: in every database the program
    can produce, a create that succeeds returns the counter plus one and
    moves the counter to that id, whatever was deleted in between. *)
Theorem create_returns_next_id (d d' : db) (f : fields) (msg : string) (k : Z) :
  reachable d ->
  post_disease d f = (Sent (res_json (BAdded msg k)), d') ->
  k = seq d + 1 /\ seq d' = k.
Proof.
  intros Hr. pose proof (reachable_well_formed d Hr) as Hwf.
  destruct (reachable_ordered d Hr) as [_ Hb].
  unfold post_disease, Engine.insert.
  rewrite (top_is_seq d Hwf) by lia.
  destruct (MAX_ROWID <=? seq d); [discriminate|].
  destruct (Engine.stored (seq d + 1) (bind_fields f)); [discriminate|].
  intros H. injection H as _ <- <-. now split.
Qed.

Lemma create_returns_next_id_witness :
  exists d',
    reachable (run Engine.empty [Start; DeleteDisease 5])
    /\ post_disease (run Engine.empty [Start; DeleteDisease 5])
         (text_fields "Flu" "Fever" "Virus" "Vaccine" "Soon")
       = (Sent (res_json (BAdded "Disease added successfully" 6)), d')
    /\ seq d' = 6.
Proof.
  eexists.
  assert (Hr : reachable (run Engine.empty [Start; DeleteDisease 5]))
    by (eexists; reflexivity).
  assert (H : post_disease (run Engine.empty [Start; DeleteDisease 5])
                (text_fields "Flu" "Fever" "Virus" "Vaccine" "Soon")
              = (Sent (res_json (BAdded "Disease added successfully" 6)), _))
    by (vm_compute; reflexivity).
  split; [exact Hr|]. split; [exact H|].
  exact (proj2 (create_returns_next_id _ _ _ _ _ Hr H)).
Defined.

(** X14. A start on a table that has been emptied seeds it again: when
    the program's database has no row left and five rowids remain, the
    start inserts the five samples in their order under the five ids
    that follow the counter, not under the ids the samples had before. *)
Theorem emptied_table_is_seeded_again (d : db) :
  reachable d ->
  rows d = [] ->
  seq d + 5 <= MAX_ROWID ->
  createTables d = mkDb (numbered (seq d + 1) sampleDiseases) (seq d + 5).
Proof.
  intros Hr Hrows Hroom. pose proof (reachable_well_formed d Hr) as Hwf.
  destruct (reachable_ordered d Hr) as [_ Hb].
  unfold createTables. rewrite (insertSampleData_empty d Hrows).
  rewrite (fold_run_sample_numbered sampleDiseases d Hwf)
    by (try exact Hroom; lia).
  now rewrite Hrows.
Qed.

Lemma emptied_table_is_seeded_again_witness :
  reachable (run Engine.empty
               [Start; DeleteDisease 1; DeleteDisease 2; DeleteDisease 3;
                DeleteDisease 4; DeleteDisease 5])
  /\ map id (rows (createTables (run Engine.empty
               [Start; DeleteDisease 1; DeleteDisease 2; DeleteDisease 3;
                DeleteDisease 4; DeleteDisease 5])))
     = [6; 7; 8; 9; 10].
Proof.
  assert (H : reachable (run Engine.empty
               [Start; DeleteDisease 1; DeleteDisease 2; DeleteDisease 3;
                DeleteDisease 4; DeleteDisease 5]))
    by (eexists; reflexivity).
  split; [exact H|].
  rewrite (emptied_table_is_seeded_again _ H);
    [reflexivity | reflexivity | vm_compute; discriminate].
Defined.

(** X15. In every database the program can produce, an id that is in the
    table belongs to one row: an update or a delete of it reports one row
    changed, and the delete leaves one row fewer. *)
Theorem present_id_changes_one_row (d : db) (k : Z) (f : fields) :
  reachable d ->
  In k (ids d) ->
  Engine.touched d k = 1
  /\ (forall c d', Engine.update d (bind_fields f) k = Ok (c, d') -> c = 1)
  /\ Engine.delete d k = Ok (1, snd (delete_disease d k))
  /\ S (length (rows (snd (delete_disease d k)))) = length (rows d).
Proof.
  intros Hr Hin. destruct (reachable_well_formed d Hr) as [Hnd _].
  assert (Ht : Engine.touched d k = 1).
  { unfold Engine.touched. now rewrite (unique_row k (rows d) Hnd Hin). }
  split; [exact Ht|]. split.
  { intros c d'. unfold Engine.update. rewrite Ht. simpl.
    destruct (Engine.stored k (bind_fields f)); [discriminate|].
    intros H. now injection H as <- _. }
  unfold delete_disease, Engine.delete. rewrite Ht. cbn [Z.eqb snd rows].
  split; [reflexivity|].
  pose proof (filter_split_length (fun r => id r =? k) (rows d)) as Hlen.
  rewrite (unique_row k (rows d) Hnd Hin) in Hlen. exact Hlen.
Qed.

Lemma present_id_changes_one_row_witness :
  reachable seeded
  /\ In 3 (ids seeded)
  /\ Engine.touched seeded 3 = 1
  /\ S (length (rows (snd (delete_disease seeded 3)))) = length (rows seeded).
Proof.
  assert (Hr : reachable seeded) by (exists [Start]; reflexivity).
  assert (Hin : In 3 (ids seeded)) by (vm_compute; tauto).
  split; [exact Hr|]. split; [exact Hin|].
  destruct (present_id_changes_one_row seeded 3
              (text_fields "a" "b" "c" "d" "e") Hr Hin) as [H1 [_ [_ H4]]].
  split; [exact H1 | exact H4].
Defined.

(** ** Reading one record and the listing *)

Section Lookup.

Lemma find_unique (r : disease) (l : list disease) :
  NoDup (map id l) -> In r l -> find (fun x => id x =? id r) l = Some r.
Proof.
  induction l as [|x l IH]; simpl; [tauto|]. intros Hnd Hin.
  inversion Hnd as [|y ys Hx Hl]; subst.
  destruct Hin as [->|Hin]; [now rewrite Z.eqb_refl|].
  destruct (Z.eqb_spec (id x) (id r)) as [E|E]; [|now apply IH].
  exfalso. apply Hx. rewrite E. now apply in_map.
Qed.

End Lookup.

(** X16. Reading by id agrees with the listing: in every database the
    program can produce, the read of an id answers 200 with a row exactly
    when that row is in the listing under that id, and 404 exactly when no
    listed row has the id. *)
Theorem read_agrees_with_listing (d : db) (k : Z) :
  reachable d ->
  (forall r, get_disease d k = (found r, d) <-> In r (rows d) /\ id r = k)
  /\ (get_disease d k = (not_found, d) <-> ~ In k (map id (rows d))).
Proof.
  intros Hr. destruct (reachable_well_formed d Hr) as [Hnd _].
  unfold get_disease, Engine.select_by_id. split.
  - intros r. split.
    + destruct (find _ (rows d)) as [r0|] eqn:Hf; intros H;
        [|discriminate].
      injection H as ->. apply find_some in Hf as [Hin Hid].
      split; [exact Hin | now apply Z.eqb_eq].
    + intros [Hin <-]. now rewrite (find_unique r (rows d) Hnd Hin).
  - split.
    + destruct (find _ (rows d)) as [r0|] eqn:Hf; intros H;
        [discriminate|].
      intros Hin. apply in_map_iff in Hin as [x [Hx Hin]].
      pose proof (find_none _ _ Hf x Hin) as Hn. simpl in Hn.
      rewrite Hx, Z.eqb_refl in Hn. discriminate.
    + intros Hout. now rewrite find_absent.
Qed.

Lemma read_agrees_with_listing_witness :
  reachable seeded
  /\ (get_disease seeded 7 = (not_found, seeded)
      <-> ~ In 7 (map id (rows seeded))).
Proof.
  assert (Hr : reachable seeded) by (exists [Start]; reflexivity).
  split; [exact Hr|].
  exact (proj2 (read_agrees_with_listing seeded 7 Hr)).
Defined.
